(** * The EGL platform binding of the GL driver (driver/gl/egl_platform.cpp)

    A shallow embedding of [EGLPlatform] and of
    [EGLDispatchTable::PopulateForReplay], and the properties of the
    context lifecycle that the design document states about them.

    The code talks to two collaborators it does not own: the process
    module loader ([Process::LoadModule], [Process::GetFunctionAddress])
    and the native EGL driver, reached through the function pointers of
    the dispatch table [EGL].  Both are modelled as one deterministic
    oracle that answers a call knowing every call made before it; the
    embedding records each call it issues, so that statements such as
    "the legacy request is never issued" are statements about the
    recorded history. *)

From stdpp Require Import gmap strings list.

Local Open Scope string_scope.
Local Open Scope list_scope.
Local Open Scope Z_scope.

(** ** Handles and constants *)

(** Every handle ([EGLDisplay], [EGLContext], [EGLSurface], [EGLConfig],
    [EGLNativeWindowType], a module handle, a function pointer) is an
    opaque machine word; the null handle is [0]. *)
Abbreviation handle := Z (only parsing).
Abbreviation EGLint := Z (only parsing).

Definition NULL : handle := 0.

(** The EGL enumerants this file uses.  They are declared in the Khronos
    headers (EGL/egl.h, EGL/eglext.h), which are not under src/; the
    values are the ones those headers fix. *)
Definition EGL_FALSE : EGLint := 0.
Definition EGL_TRUE : EGLint := 1.
Definition EGL_DEFAULT_DISPLAY : handle := 0.
Definition EGL_NO_CONTEXT : handle := 0.
Definition EGL_PBUFFER_BIT : EGLint := 0x0001.
Definition EGL_WINDOW_BIT : EGLint := 0x0004.
Definition EGL_OPENGL_ES3_BIT : EGLint := 0x0040.
Definition EGL_BLUE_SIZE : EGLint := 0x3022.
Definition EGL_GREEN_SIZE : EGLint := 0x3023.
Definition EGL_RED_SIZE : EGLint := 0x3024.
Definition EGL_SURFACE_TYPE : EGLint := 0x3033.
Definition EGL_NONE : EGLint := 0x3038.
Definition EGL_COLOR_BUFFER_TYPE : EGLint := 0x303F.
Definition EGL_RENDERABLE_TYPE : EGLint := 0x3040.
Definition EGL_CONFORMANT : EGLint := 0x3042.
Definition EGL_HEIGHT : EGLint := 0x3056.
Definition EGL_WIDTH : EGLint := 0x3057.
Definition EGL_READ : EGLint := 0x305A.
Definition EGL_RGB_BUFFER : EGLint := 0x308E.
Definition EGL_CONTEXT_CLIENT_VERSION : EGLint := 0x3098.
Definition EGL_CONTEXT_MAJOR_VERSION_KHR : EGLint := 0x3098.
Definition EGL_CONTEXT_MINOR_VERSION_KHR : EGLint := 0x30FB.
Definition EGL_CONTEXT_FLAGS_KHR : EGLint := 0x30FC.
Definition EGL_CONTEXT_OPENGL_DEBUG_BIT_KHR : EGLint := 0x0001.
Definition EGL_OPENGL_ES_API : EGLint := 0x30A0.

(** ** Data model *)

(** Modelled from the spec: [GLWindowingData] is declared in gl_common.h,
    which is not under src/.  It is the "windowing data" triple of a
    display, a context and a surface; [ctx]/[egl_ctx] and [wnd]/[egl_wnd]
    name the same storage, and a default-constructed record has every
    handle null. *)
Record GLWindowingData := mkWD {
  egl_dpy : handle;
  egl_ctx : handle;
  egl_wnd : handle
}.

Definition GLWindowingData_default : GLWindowingData := mkWD NULL NULL NULL.

(** Modelled from the spec: [WindowingSystem] and [WindowingData] are
    declared in the replay API headers, which are not under src/.  The
    tag names are the ones this file switches on; [OtherSystem] stands
    for any enumerator this file does not name. *)
Inductive WindowingSystem :=
  | Unknown
  | Win32
  | Android
  | Xlib
  | OtherSystem (tag : N).

Record WindowingData := mkWindow {
  system : WindowingSystem;
  win32_window : handle;
  android_window : handle;
  xlib_window : handle
}.

(** Modelled from the spec: the status enumeration returned by
    [InitialiseAPI]. *)
Inductive ReplayStatus :=
  | Succeeded
  | APIInitFailed
  | APIHardwareUnsupported.

(** The build platform, that is which of RDOC_WIN32, RDOC_ANDROID and
    RDOC_LINUX is enabled (tested in this order by the source). *)
Inductive Platform :=
  | RDOC_WIN32
  | RDOC_ANDROID
  | RDOC_LINUX
  | RDOC_OTHER.

(** ** Diagnostics *)

Inductive Level := LogDebug | LogWarn | LogError | LogAssert.

#[export] Instance Level_eq_dec : EqDecision Level.
Proof. solve_decision. Defined.

Inductive Arg :=
  | AStr (s : string)
  | ANum (n : Z)
  | ASys (s : WindowingSystem).

(** A diagnostic is kept as the level, the format string of the source and
    the arguments it was given. *)
Record Diag := mkDiag {
  level : Level;
  format : string;
  args : list Arg
}.

(** ** Calls that leave this translation unit *)

Inductive Call :=
  | LoadModule (path : string)
  | GetFunctionAddress (module : handle) (name : string)
  | eglGetProcAddress (name : string)
  | eglBindAPI (api : EGLint)
  | eglGetDisplay (id : handle)
  | eglInitialize (dpy : handle)
  | eglChooseConfig (dpy : handle) (attribs : list EGLint)
  | eglCreateContext (dpy config share : handle) (attribs : list EGLint)
  | eglCreateWindowSurface (dpy config win : handle)
  | eglCreatePbufferSurface (dpy config : handle) (attribs : list EGLint)
  | eglMakeCurrent (dpy draw read ctx : handle)
  | eglDestroySurface (dpy surface : handle)
  | eglDestroyContext (dpy ctx : handle)
  | eglSwapBuffers (dpy surface : handle)
  | eglQuerySurface (dpy surface : handle) (attribute : EGLint)
  | eglGetError
  | eglGetCurrentContext
  | eglGetCurrentDisplay
  | eglGetCurrentSurface (readdraw : EGLint).

(** What a call gives back: its return value and, for the calls that take
    an out-parameter the code reads ([eglChooseConfig]'s config,
    [eglQuerySurface]'s value), what was written there, if anything. *)
Record Reply := mkReply {
  ret : Z;
  out : option Z
}.

(** The collaborators: each answer may depend on the whole history. *)
Abbreviation Oracle := (list Call → Call → Reply) (only parsing).

(** The calling thread's active binding, as [eglMakeCurrent] sets it. *)
Record Binding := mkBinding {
  cur_dpy : handle;
  cur_draw : handle;
  cur_read : handle;
  cur_ctx : handle
}.

(** The state the code runs in: the process-wide dispatch table [EGL]
    (member name to function pointer; a member that was never assigned is
    null, as in [EGLDispatchTable EGL = {}]), the thread's active binding,
    the calls issued so far (oldest first) and the diagnostics emitted so
    far. *)
Record World := mkWorld {
  EGL : gmap string Z;
  current : Binding;
  calls : list Call;
  diags : list Diag
}.

Definition member (t : gmap string Z) (func : string) : Z :=
  default NULL (t !! func).

(** What is fixed when the program is built and started. *)
Record Env := mkEnv {
  platform : Platform;
  (** EGL_HOOKED_SYMBOLS followed by EGL_NONHOOKED_SYMBOLS: each entry is a
      member name and its [isext] flag.  The two macros are defined in
      egl_dispatch_table.h, which is not under src/. *)
  symbols : list (string * bool);
  IsReplayApp : bool;
  LocatePluginFile : string → string → string;
  ToStr : Z → string;
  (** what an uninitialised local happens to hold *)
  indeterminate : Z;
  oracle : Oracle
}.

(** ** A state monad with faults

    A computation either faults (a call through a null function pointer)
    or returns a value and the new state. *)
Definition M (A : Type) : Type := World → option (A * World).

#[export] Instance M_ret : MRet M := λ A a w, Some (a, w).

#[export] Instance M_bind : MBind M := λ A B k m w,
  match m w with
  | Some (a, w') => k a w'
  | None => None
  end.

Definition fault {A} : M A := λ _, None.

Definition when (b : bool) (m : M unit) : M unit :=
  if b then m else mret tt.

Definition table : M (gmap string Z) := λ w, Some (EGL w, w).

Definition assign (func : string) (p : Z) : M unit :=
  λ w, Some (tt, mkWorld (<[func := p]> (EGL w)) (current w) (calls w) (diags w)).

Definition emit (l : Level) (fmt : string) (a : list Arg) : M unit :=
  λ w, Some (tt, mkWorld (EGL w) (current w) (calls w) (diags w ++ [mkDiag l fmt a])).

Definition RDCERR := emit LogError.
Definition RDCWARN := emit LogWarn.
Definition RDCDEBUG := emit LogDebug.

(** Modelled from the spec: RDCASSERT is a macro of the diagnostic
    collaborator (not under src/); a failed assertion is reported and the
    code carries on. *)
Definition RDCASSERT (cond : bool) (text : string) : M unit :=
  when (negb cond) (emit LogAssert text []).

Definition bind_thread (b : Binding) : M unit :=
  λ w, Some (tt, mkWorld (EGL w) b (calls w) (diags w)).

Definition bound_thread : M Binding := λ w, Some (current w, w).

Section Platform.

Variable env : Env.

(** A call to a collaborator: it is recorded and the oracle answers it. *)
Definition extern (c : Call) : M Reply :=
  λ w, Some (oracle env (calls w) c,
             mkWorld (EGL w) (current w) (calls w ++ [c]) (diags w)).

(** A call through the member [func] of the dispatch table: a fault when
    the pointer is null. *)
Definition via (func : string) (c : Call) : M Reply :=
  t ← table;
  if decide (member t func = NULL) then fault else extern c.

(** [eglMakeCurrent] binds what it is asked to bind when it succeeds and
    leaves the binding alone when it fails. *)
Definition EGL_MakeCurrent (dpy draw read ctx : handle) : M Z :=
  r ← via "MakeCurrent" (eglMakeCurrent dpy draw read ctx);
  when (bool_decide (ret r = EGL_TRUE)) (bind_thread (mkBinding dpy draw read ctx));;
  mret (ret r).

Definition EGL_GetCurrentContext : M handle :=
  via "GetCurrentContext" eglGetCurrentContext;;
  b ← bound_thread; mret (cur_ctx b).

Definition EGL_GetCurrentDisplay : M handle :=
  via "GetCurrentDisplay" eglGetCurrentDisplay;;
  b ← bound_thread; mret (cur_dpy b).

Definition EGL_GetCurrentSurface (readdraw : EGLint) : M handle :=
  via "GetCurrentSurface" (eglGetCurrentSurface readdraw);;
  b ← bound_thread;
  mret (if decide (readdraw = EGL_READ) then cur_read b else cur_draw b).

(** ** GetEGLHandle (lines 29-41) *)
Definition GetEGLHandle : M handle :=
  match platform env with
  | RDOC_WIN32 =>
      r ← extern (LoadModule (LocatePluginFile env "gles" "libEGL.dll"));
      mret (ret r)
  | _ =>
      r ← extern (LoadModule "libEGL.so");
      if decide (ret r = NULL)
      then r' ← extern (LoadModule "libEGL.so.1"); mret (ret r')
      else mret (ret r)
  end.

(** ** EGLDispatchTable::PopulateForReplay (lines 293-326) *)

(** One expansion of the LOAD_FUNC macro; [symbols_ok] is threaded. *)
Definition LOAD_FUNC (module : handle) (func : string) (isext : bool)
    (symbols_ok : bool) : M bool :=
  t ← table;
  when (bool_decide (member t func = NULL))
    (r ← extern (GetFunctionAddress module ("egl" +:+ func));
     assign func (ret r));;
  t ← table;
  when (bool_decide (member t func = NULL) && isext)
    (r ← via "GetProcAddress" (eglGetProcAddress ("egl" +:+ func));
     assign func (ret r));;
  t ← table;
  if bool_decide (member t func = NULL) && negb isext
  then RDCWARN "Unable to load '%s'" [AStr func];; mret false
  else mret symbols_ok.

(** EGL_HOOKED_SYMBOLS(LOAD_FUNC) EGL_NONHOOKED_SYMBOLS(LOAD_FUNC): one
    expansion per listed symbol, in the order of the list. *)
Fixpoint LOAD_FUNCS (module : handle) (syms : list (string * bool))
    (symbols_ok : bool) : M bool :=
  match syms with
  | [] => mret symbols_ok
  | (func, isext) :: rest =>
      ok ← LOAD_FUNC module func isext symbols_ok;
      LOAD_FUNCS module rest ok
  end.

Definition PopulateForReplay : M bool :=
  RDCASSERT (IsReplayApp env) "RenderDoc::Inst().IsReplayApp()";;
  module ← GetEGLHandle;
  if decide (module = NULL)
  then RDCERR "Can't load libEGL" [];; mret false
  else
    RDCDEBUG "Initialising EGL function pointers" [];;
    LOAD_FUNCS module (symbols env) true.

(** ** EGLPlatform (lines 43-284) *)

Definition MakeContextCurrent (data : GLWindowingData) : M bool :=
  t ← table;
  if decide (member t "MakeCurrent" ≠ NULL)
  then
    r ← EGL_MakeCurrent (egl_dpy data) (egl_wnd data) (egl_wnd data) (egl_ctx data);
    mret (bool_decide (r = EGL_TRUE))
  else mret false.

Definition configAttribs (surfaceType : EGLint) : list EGLint :=
  [EGL_RED_SIZE; 8; EGL_GREEN_SIZE; 8; EGL_BLUE_SIZE; 8;
   EGL_RENDERABLE_TYPE; EGL_OPENGL_ES3_BIT;
   EGL_CONFORMANT; EGL_OPENGL_ES3_BIT;
   EGL_SURFACE_TYPE; surfaceType;
   EGL_COLOR_BUFFER_TYPE; EGL_RGB_BUFFER;
   EGL_NONE].

(** [verAttribs] as it is declared; the loop overwrites indices 1 and 3. *)
Definition verAttribs : list EGLint :=
  [EGL_CONTEXT_MAJOR_VERSION_KHR; 3;
   EGL_CONTEXT_MINOR_VERSION_KHR; 1;
   EGL_CONTEXT_FLAGS_KHR; EGL_CONTEXT_OPENGL_DEBUG_BIT_KHR;
   EGL_NONE].

Definition versions : list (Z * Z) := [(3, 2); (3, 1); (3, 0)].

Definition baseAttribs : list EGLint :=
  [EGL_CONTEXT_CLIENT_VERSION; 3;
   EGL_CONTEXT_FLAGS_KHR; EGL_CONTEXT_OPENGL_DEBUG_BIT_KHR;
   EGL_NONE].

Definition pbAttribs : list EGLint :=
  [EGL_WIDTH; 32; EGL_HEIGHT; 32; EGL_NONE].

(** The [for] loop over [versions] (lines 190-198): [attribs] is the array
    as the previous iterations left it and [ctx] the current value of the
    local of that name. *)
Fixpoint version_loop (eglDisplay config share_ctx : handle)
    (vs : list (Z * Z)) (attribs : list EGLint) (ctx : handle) : M handle :=
  match vs with
  | [] => mret ctx
  | (major, minor) :: rest =>
      let attribs := <[3%nat := minor]> (<[1%nat := major]> attribs) in
      r ← via "CreateContext" (eglCreateContext eglDisplay config share_ctx attribs);
      if decide (ret r ≠ NULL)
      then mret (ret r)
      else version_loop eglDisplay config share_ctx rest attribs (ret r)
  end.

Definition CreateWindowingData (eglDisplay share_ctx window : handle)
    : M GLWindowingData :=
  let ret0 := mkWD eglDisplay NULL NULL in
  let surfaceType := if decide (window = 0) then EGL_PBUFFER_BIT else EGL_WINDOW_BIT in
  r ← via "ChooseConfig" (eglChooseConfig eglDisplay (configAttribs surfaceType));
  let config := default (indeterminate env) (out r) in
  if decide (ret r = EGL_FALSE)
  then RDCERR "Couldn't find a suitable EGL config" [];; mret ret0
  else
    ctx ← version_loop eglDisplay config share_ctx versions verAttribs NULL;
    ctx ← (if decide (ctx = NULL)
           then r ← via "CreateContext"
                      (eglCreateContext eglDisplay config share_ctx baseAttribs);
                mret (ret r)
           else mret ctx);
    if decide (ctx = NULL)
    then RDCERR "Couldn't create GL ES context" [];; mret ret0
    else
      surface ←
        (if decide (window ≠ 0)
         then
           r ← via "CreateWindowSurface"
                 (eglCreateWindowSurface eglDisplay config window);
           when (bool_decide (ret r = NULL))
             (RDCERR "Couldn't create surface for window" []);;
           mret (ret r)
         else
           r ← via "CreatePbufferSurface"
                 (eglCreatePbufferSurface eglDisplay config pbAttribs);
           when (bool_decide (ret r = NULL))
             (RDCERR "Couldn't create a suitable PBuffer" []);;
           mret (ret r));
      mret (mkWD eglDisplay ctx surface).

Definition MakeContext (share : GLWindowingData) : M GLWindowingData :=
  t ← table;
  if bool_decide (member t "CreateContext" ≠ NULL)
     && bool_decide (member t "ChooseConfig" ≠ NULL)
     && bool_decide (member t "CreatePbufferSurface" ≠ NULL)
  then CreateWindowingData (egl_dpy share) (egl_ctx share) 0
  else mret GLWindowingData_default.

Definition DeleteContext (context : GLWindowingData) : M unit :=
  t ← table;
  when (bool_decide (egl_wnd context ≠ NULL)
        && bool_decide (member t "DestroySurface" ≠ NULL))
    (via "DestroySurface"
       (eglDestroySurface (egl_dpy context) (egl_wnd context));; mret tt);;
  t ← table;
  when (bool_decide (egl_ctx context ≠ NULL)
        && bool_decide (member t "DestroyContext" ≠ NULL))
    (via "DestroyContext"
       (eglDestroyContext (egl_dpy context) (egl_ctx context));; mret tt).

Definition DeleteReplayContext (context : GLWindowingData) : M unit :=
  t ← table;
  when (bool_decide (member t "DestroyContext" ≠ NULL))
    (EGL_MakeCurrent (egl_dpy context) 0 0 NULL;;
     via "DestroySurface"
       (eglDestroySurface (egl_dpy context) (egl_wnd context));;
     via "DestroyContext"
       (eglDestroyContext (egl_dpy context) (egl_ctx context));;
     mret tt).

Definition SwapBuffers (context : GLWindowingData) : M unit :=
  via "SwapBuffers" (eglSwapBuffers (egl_dpy context) (egl_wnd context));;
  mret tt.

(** [w] and [h] are passed by reference: the function takes what they
    hold and returns what they hold afterwards. *)
Definition GetOutputWindowDimensions (context : GLWindowingData) (w h : Z)
    : M (Z * Z) :=
  c ← EGL_GetCurrentContext;
  d ← EGL_GetCurrentDisplay;
  s ← EGL_GetCurrentSurface EGL_READ;
  let oldContext := mkWD d c s in
  MakeContextCurrent context;;
  width_ok ← via "QuerySurface"
     (eglQuerySurface (egl_dpy context) (egl_wnd context) EGL_WIDTH);
  let w := default w (out width_ok) in
  height_ok ← via "QuerySurface"
     (eglQuerySurface (egl_dpy context) (egl_wnd context) EGL_HEIGHT);
  let h := default h (out height_ok) in
  when (bool_decide (ret width_ok = EGL_FALSE)
        || bool_decide (ret height_ok = EGL_FALSE))
    (e ← via "GetError" eglGetError;
     RDCWARN "Unable to query the surface size. Error: (0x%x) %s"
       [ANum (ret e); AStr (ToStr env (ret e))]);;
  MakeContextCurrent oldContext;;
  mret (w, h).

Definition IsOutputWindowVisible (context : GLWindowingData) : bool := true.

Definition MakeOutputWindow (window : WindowingData) (depth : bool)
    (share_context : GLWindowingData) : M GLWindowingData :=
  win ← match platform env, system window with
        | RDOC_WIN32, Win32 => mret (win32_window window)
        | RDOC_ANDROID, Android => mret (android_window window)
        | RDOC_LINUX, Xlib => mret (xlib_window window)
        | _, Unknown => mret 0
        | _, _ =>
            RDCERR "Unexpected window system %u" [ASys (system window)];;
            mret 0
        end;
  r ← via "GetDisplay" (eglGetDisplay EGL_DEFAULT_DISPLAY);
  RDCASSERT (bool_decide (ret r ≠ NULL)) "eglDisplay";;
  CreateWindowingData (ret r) (egl_ctx share_context) win.

(** [replayContext] is passed by reference: the function takes what it
    holds and returns, next to the status, what it holds afterwards. *)
Definition InitialiseAPI (replayContext : GLWindowingData)
    : M (ReplayStatus * GLWindowingData) :=
  via "BindAPI" (eglBindAPI EGL_OPENGL_ES_API);;
  r ← via "GetDisplay" (eglGetDisplay EGL_DEFAULT_DISPLAY);
  let eglDisplay := ret r in
  if decide (eglDisplay = NULL)
  then
    RDCERR "Couldn't open default EGL display" [];;
    mret (APIInitFailed, replayContext)
  else
    via "Initialize" (eglInitialize eglDisplay);;
    let base := mkWD eglDisplay EGL_NO_CONTEXT 0 in
    replayContext ← MakeContext base;
    if decide (egl_ctx replayContext = NULL ∨ egl_wnd replayContext = NULL)
    then
      RDCERR "Couldn't create OpenGL ES 3.x replay context - required for replay" [];;
      DeleteContext replayContext;;
      mret (APIHardwareUnsupported, mkWD 0 0 0)
    else mret (Succeeded, replayContext).

Definition GetReplayFunction (funcname : string) : M handle :=
  r ← via "GetProcAddress" (eglGetProcAddress funcname);
  if decide (ret r ≠ NULL)
  then mret (ret r)
  else
    module ← GetEGLHandle;
    r ← extern (GetFunctionAddress module funcname);
    mret (ret r).

End Platform.

(** ** A reference environment

    A small driver on which the code can be run.  The module is found
    under its second name and exports every core entry point; extension
    entry points are only reachable through [eglGetProcAddress].  The
    driver accepts OpenGL ES 3.[gles] and below ([gles < 0]: it accepts
    no request at all) and creates pixel buffers if [pbuffers] says so;
    display 7 is the default display and native window 13 is not a valid
    window. *)
Module Ref.

(** A symbol list of the shape EGL_HOOKED_SYMBOLS and
    EGL_NONHOOKED_SYMBOLS have. *)
Definition syms : list (string * bool) :=
  [("BindAPI", false); ("GetProcAddress", false); ("GetDisplay", false);
   ("CreateContext", false); ("DestroyContext", false);
   ("CreateWindowSurface", false); ("MakeCurrent", false);
   ("SwapBuffers", false); ("PostSubBufferNV", true);
   ("ChooseConfig", false); ("CreatePbufferSurface", false);
   ("DestroySurface", false); ("GetCurrentContext", false);
   ("GetCurrentDisplay", false); ("GetCurrentSurface", false);
   ("GetError", false); ("Initialize", false); ("QuerySurface", false)].

Definition answers (gles : Z) (pbuffers : bool) (h : list Call) (c : Call)
    : Reply :=
  match c with
  | LoadModule path =>
      mkReply (if decide (path = "libEGL.so.1") then 100 else 0) None
  | GetFunctionAddress m name =>
      mkReply (if decide (name = "eglPostSubBufferNV") then 0
               else 1000 + Z.of_nat (String.length name)) None
  | eglGetProcAddress name => mkReply (2000 + Z.of_nat (String.length name)) None
  | eglGetDisplay _ => mkReply 7 None
  | eglChooseConfig _ _ => mkReply EGL_TRUE (Some 40)
  | eglCreateContext _ _ _ attribs =>
      let minor := if decide (length attribs = 7%nat)
                   then default 0 (attribs !! 3%nat) else 0 in
      mkReply (if decide (minor ≤ gles) then 50 + Z.of_nat (length h) else 0) None
  | eglCreateWindowSurface _ _ win =>
      mkReply (if decide (win = 13) then 0 else 60 + win) None
  | eglCreatePbufferSurface _ _ _ =>
      mkReply (if pbuffers then 61 else 0) None
  | eglMakeCurrent _ _ _ _ => mkReply EGL_TRUE None
  | eglQuerySurface _ surface attribute =>
      if decide (surface = 0) then mkReply EGL_FALSE None
      else mkReply EGL_TRUE
             (Some (if decide (attribute = EGL_WIDTH) then 640 else 480))
  | eglGetError => mkReply 0x300D None
  | _ => mkReply EGL_TRUE None
  end.

Definition driver (gles : Z) (pbuffers : bool) : Env :=
  mkEnv RDOC_LINUX syms true (λ _ f, f) (λ _, "EGL_BAD_SURFACE") 0
    (answers gles pbuffers).

Definition env : Env := driver 1 true.

Definition start : World :=
  mkWorld ∅ (mkBinding 0 0 0 0) [] [].

(** A module that loads and exports nothing, with the same symbol list. *)
Definition stub : Env :=
  mkEnv RDOC_LINUX syms true (λ _ f, f) (λ _, "EGL_SUCCESS") 0
    (λ _ c, match c with
            | LoadModule _ => mkReply 100 None
            | _ => mkReply 0 None
            end).

(** No module can be loaded at all, and the driver answers nothing. *)
Definition absent : Env :=
  mkEnv RDOC_LINUX syms true (λ _ f, f) (λ _, "EGL_SUCCESS") 0
    (λ _ _, mkReply 0 None).

(** A table in which only [DestroyContext] was resolved. *)
Definition partial : World :=
  mkWorld {["DestroyContext" := 1017]} (mkBinding 0 0 0 0) [] [].

(** The state after the table was populated, with context 51 current on
    display 7, drawing to surface 61 and reading from surface 62. *)
Definition ready : World :=
  match PopulateForReplay env start with
  | Some (_, w) => mkWorld (EGL w) (mkBinding 7 61 62 51) (calls w) (diags w)
  | None => start
  end.

End Ref.

(** ** Vocabulary of the statements *)

Definition call_made (w : World) (c : Call) : World :=
  mkWorld (EGL w) (current w) (calls w ++ [c]) (diags w).

Definition reported (w : World) (d : Diag) : World :=
  mkWorld (EGL w) (current w) (calls w) (diags w ++ [d]).

Definition rebound (w : World) (b : Binding) : World :=
  mkWorld (EGL w) b (calls w) (diags w).

(** The members [fs] of the dispatch table hold a function pointer. *)
Definition bound (w : World) (fs : list string) : Prop :=
  Forall (λ f, member (EGL w) f ≠ NULL) fs.

(** The calls and the diagnostics [w'] has recorded beyond those of [w]. *)
Definition issued (w w' : World) : list Call :=
  drop (length (calls w)) (calls w').

Definition emitted (w w' : World) : list Diag :=
  drop (length (diags w)) (diags w').

(** The attribute list of the request for version [major].[minor]: the
    array [verAttribs] after the loop body has set indices 1 and 3. *)
Definition requested (major minor : Z) : list EGLint :=
  <[3%nat := minor]> (<[1%nat := major]> verAttribs).

(** The surface type [CreateWindowingData] asks a configuration for. *)
Definition surfaceType (window : handle) : EGLint :=
  if decide (window = 0) then EGL_PBUFFER_BIT else EGL_WINDOW_BIT.

Definition is_LoadModule (c : Call) : Prop :=
  match c with LoadModule _ => True | _ => False end.

Definition is_lookup (c : Call) : Prop :=
  match c with
  | GetFunctionAddress _ _ | eglGetProcAddress _ => True
  | _ => False
  end.

Definition surface_creation (c : Call) : Prop :=
  match c with
  | eglCreateWindowSurface _ _ _ | eglCreatePbufferSurface _ _ _ => True
  | _ => False
  end.

(** The calls that select a configuration or create a context or a
    surface. *)
Definition creation_call (c : Call) : Prop :=
  match c with
  | eglChooseConfig _ _ | eglCreateContext _ _ _ _
  | eglCreateWindowSurface _ _ _ | eglCreatePbufferSurface _ _ _ => True
  | _ => False
  end.

(** The native window the [switch] of [MakeOutputWindow] leaves in [win]. *)
Definition native_window (p : Platform) (window : WindowingData) : handle :=
  match p, system window with
  | RDOC_WIN32, Win32 => win32_window window
  | RDOC_ANDROID, Android => android_window window
  | RDOC_LINUX, Xlib => xlib_window window
  | _, _ => 0
  end.

(** The tags [MakeOutputWindow] has a [case] label for on a platform. *)
Definition supported (p : Platform) (s : WindowingSystem) : bool :=
  match p, s with
  | RDOC_WIN32, Win32 | RDOC_ANDROID, Android | RDOC_LINUX, Xlib => true
  | _, Unknown => true
  | _, _ => false
  end.

Definition unexpected (s : WindowingSystem) : Diag :=
  mkDiag LogError "Unexpected window system %u" [ASys s].

Definition unable_to_load (func : string) : Diag :=
  mkDiag LogWarn "Unable to load '%s'" [AStr func].

(** The mandatory symbols of [syms] that are null in the table [t]. *)
Definition missing (t : gmap string Z) (syms : list (string * bool)) : list string :=
  (filter (λ s, s.2 = false ∧ member t s.1 = NULL) syms).*1.

(** The fall-back of LOAD_FUNC calls through the table's own
    [GetProcAddress] member.  That member is callable while [syms] are
    loaded when it is bound on entry, or when the module exports
    eglGetProcAddress and only mandatory symbols are listed before it. *)
Definition fallback_callable (env : Env) (w : World) (module : handle)
    (syms : list (string * bool)) : Prop :=
  member (EGL w) "GetProcAddress" ≠ NULL ∨
  ∃ pre isext post,
    syms = pre ++ ("GetProcAddress", isext) :: post ∧
    Forall (λ s, s.2 = false) pre ∧
    ∀ h, ret (oracle env h (GetFunctionAddress module "eglGetProcAddress")) ≠ NULL.

(** The contexts and surfaces the driver created and has not been asked to
    destroy, after the calls [new] were issued on top of the history [h]
    in which [ctxs] and [surfs] were alive. *)
Fixpoint live_after (env : Env) (h new : list Call) (ctxs surfs : list handle)
    : list handle * list handle :=
  match new with
  | [] => (ctxs, surfs)
  | c :: rest =>
      let r := ret (oracle env h c) in
      let '(ctxs, surfs) :=
        match c with
        | eglCreateContext _ _ _ _ =>
            (if decide (r = NULL) then ctxs else r :: ctxs, surfs)
        | eglCreateWindowSurface _ _ _ | eglCreatePbufferSurface _ _ _ =>
            (ctxs, if decide (r = NULL) then surfs else r :: surfs)
        | eglDestroyContext _ x => (filter (λ y, y ≠ x) ctxs, surfs)
        | eglDestroySurface _ x => (ctxs, filter (λ y, y ≠ x) surfs)
        | _ => (ctxs, surfs)
        end in
      live_after env (h ++ [c]) rest ctxs surfs
  end.

(** A driver that rejects the three versioned requests and the legacy
    one, whenever and for whatever display, configuration and share
    context they are made. *)
Definition rejects_every_request (env : Env) : Prop :=
  ∀ h dpy config share attribs,
    attribs ∈ [requested 3 2; requested 3 1; requested 3 0; baseAttribs] →
    ret (oracle env h (eglCreateContext dpy config share attribs)) = NULL.

(** "A repeated PopulateForReplay leaves every pointer unchanged, returns
    true, and performs no module-load operation", for every state in which
    all symbols are bound. *)
Definition repopulate_is_noop (env : Env) : Prop :=
  ∀ w, Forall (λ s, member (EGL w) s.1 ≠ NULL) (symbols env) →
    ∃ w', PopulateForReplay env w = Some (true, w') ∧
          (∀ func, member (EGL w') func = member (EGL w) func) ∧
          (∀ path, LoadModule path ∉ issued w w').

(** "Destroys the surface only if present and the context only if
    present, independently of the other field", with no fault and no
    driver call on a null handle, for every record in which the context,
    the surface or both are null. *)
Definition destroys_only_present (delete : GLWindowingData → M unit) : Prop :=
  ∀ w context,
    bound w ["MakeCurrent"; "DestroySurface"; "DestroyContext"] →
    egl_ctx context = NULL ∨ egl_wnd context = NULL →
    ∃ w', delete context w = Some (tt, w') ∧
      (eglDestroySurface (egl_dpy context) (egl_wnd context) ∈ issued w w'
         ↔ egl_wnd context ≠ NULL) ∧
      (eglDestroyContext (egl_dpy context) (egl_ctx context) ∈ issued w w'
         ↔ egl_ctx context ≠ NULL).

(** * Properties *)

(** ** Running the monad *)

Lemma run_bind {A B} (m : M A) (k : A → M B) (w : World) :
  (m ≫= k) w = match m w with Some (a, w') => k a w' | None => None end.
Proof. reflexivity. Qed.

Lemma run_ret {A} (a : A) (w : World) : (mret a : M A) w = Some (a, w).
Proof. reflexivity. Qed.

Lemma run_emit l fmt a w : emit l fmt a w = Some (tt, reported w (mkDiag l fmt a)).
Proof. reflexivity. Qed.

Lemma run_table w : table w = Some (EGL w, w).
Proof. reflexivity. Qed.

Lemma run_bind_thread b w : bind_thread b w = Some (tt, rebound w b).
Proof. reflexivity. Qed.

Lemma run_bound_thread w : bound_thread w = Some (current w, w).
Proof. reflexivity. Qed.

Lemma run_when_true (m : M unit) w : when true m w = m w.
Proof. reflexivity. Qed.

Lemma run_when_false (m : M unit) w : when false m w = Some (tt, w).
Proof. reflexivity. Qed.

Lemma run_extern env c w :
  extern env c w = Some (oracle env (calls w) c, call_made w c).
Proof. reflexivity. Qed.

Lemma run_via env f c w :
  member (EGL w) f ≠ NULL →
  via env f c w = Some (oracle env (calls w) c, call_made w c).
Proof.
  intros Hf. unfold via. rewrite run_bind, run_table.
  destruct (decide (member (EGL w) f = NULL)); [contradiction | reflexivity].
Qed.

Lemma run_via_null env f c w :
  member (EGL w) f = NULL → via env f c w = None.
Proof.
  intros Hf. unfold via. rewrite run_bind, run_table.
  destruct (decide (member (EGL w) f = NULL)); [reflexivity | contradiction].
Qed.

(** A call through an unbound member is a fault, whatever comes after. *)
Lemma via_unbound_faults {A} env f c (k : Reply → M A) w :
  member (EGL w) f = NULL → (via env f c ≫= k) w = None.
Proof. intros Hf. by rewrite run_bind, run_via_null. Qed.

Lemma bound_elem w fs f : bound w fs → f ∈ fs → member (EGL w) f ≠ NULL.
Proof. unfold bound. rewrite Forall_forall. auto. Qed.

Lemma issued_app w w' (new : list Call) :
  calls w' = calls w ++ new → issued w w' = new.
Proof. intros E. unfold issued. rewrite E. by rewrite drop_app_length. Qed.

Lemma emitted_app w w' (new : list Diag) :
  diags w' = diags w ++ new → emitted w w' = new.
Proof. intros E. unfold emitted. rewrite E. by rewrite drop_app_length. Qed.

Lemma requested_eq major minor :
  requested major minor =
  [EGL_CONTEXT_MAJOR_VERSION_KHR; major;
   EGL_CONTEXT_MINOR_VERSION_KHR; minor;
   EGL_CONTEXT_FLAGS_KHR; EGL_CONTEXT_OPENGL_DEBUG_BIT_KHR; EGL_NONE].
Proof. reflexivity. Qed.

Lemma snoc_ex {A} (l xs : list A) (x : A) :
  l ++ x :: xs = (l ++ removelast (x :: xs)) ++ [List.last (x :: xs) x].
Proof.
  rewrite <- app_assoc. f_equal. apply app_removelast_last. discriminate.
Qed.

Ltac bound_tac :=
  cbn [EGL call_made reported rebound];
  first
    [ assumption
    | match goal with
      | H : bound ?w ?fs |- _ =>
          eapply (bound_elem w fs); [exact H | solve [repeat constructor]]
      end ].

(** One step of symbolic execution of a computation applied to a state;
    it stops in front of a conditional. *)
Ltac step :=
  match goal with
  | |- context [ (?m ≫= ?k) ?w ] => rewrite (run_bind m k w)
  | |- context [ via ?e ?f ?c ?w ] =>
      rewrite (run_via e f c w) by bound_tac;
      cbn [calls call_made reported rebound]; rewrite <- ?app_assoc; cbn [app];
      let r := fresh "reply" in try set (r := oracle e _ c) in *
  | |- context [ extern ?e ?c ?w ] =>
      rewrite (run_extern e c w);
      cbn [calls call_made reported rebound]; rewrite <- ?app_assoc; cbn [app];
      let r := fresh "reply" in try set (r := oracle e _ c) in *
  | |- context [ emit ?l ?f ?a ?w ] => rewrite (run_emit l f a w)
  | |- context [ table ?w ] => rewrite (run_table w)
  | |- context [ bind_thread ?b ?w ] => rewrite (run_bind_thread b w)
  | |- context [ bound_thread ?w ] => rewrite (run_bound_thread w)
  | |- context [ @mret M _ _ ?a ?w ] => rewrite (run_ret a w)
  | |- context [ when true ?m ?w ] => rewrite (run_when_true m w)
  | |- context [ when false ?m ?w ] => rewrite (run_when_false m w)
  | _ => progress cbv beta iota
  | _ => progress cbn [EGL current calls diags call_made reported rebound
                       ret out egl_ctx egl_dpy egl_wnd andb orb negb]
  | _ => rewrite <- app_assoc; cbn [app]
  end.

(** Case analysis on the conditional the execution stopped at. *)
Ltac fork :=
  match goal with
  | |- context [ (if decide ?P then _ else _) ?w ] => destruct (decide P)
  | |- context [ (if ?g then _ else _) ?w ] =>
      match g with
      | context [ bool_decide ?P ] => destruct (bool_decide_reflect P)
      end
  | |- context [ when ?g ?m ?w ] =>
      match g with
      | context [ bool_decide ?P ] => destruct (bool_decide_reflect P)
      end
  end.

(** A branch is dead when a hypothesis contradicts its guard (up to the
    unfolding of local definitions). *)
Ltac dead :=
  exfalso;
  lazymatch goal with |- False => idtac end;
  match goal with
  | H : _ ≠ _ |- _ => exact (H eq_refl)
  | H : ¬ member _ _ ≠ NULL |- _ => apply H; bound_tac
  | H : ¬ _, H' : _ |- _ => exact (H H')
  | H : _ ≠ _, H' : _ = _ |- _ => exact (H H')
  | H : _ ≠ _, H' : ∀ h d k s, _ = _ |- _ => exact (H (H' _ _ _ _))
  | H : _ ≠ _, H' : ∀ h, _ = _ |- _ => exact (H (H' _))
  | H : ¬ (?x = ?x ∨ _) |- _ => exact (H (or_introl eq_refl))
  | H : ¬ (_ ∨ ?x = ?x) |- _ => exact (H (or_intror eq_refl))
  | H : ¬ (_ ∨ _), H' : _ |- _ =>
      first [exact (H (or_introl H')) | exact (H (or_intror H'))]
  | H : _ ∨ _ |- _ => destruct H; dead
  end.

Ltac run := repeat step.
Ltac go := run; repeat (fork; try dead; run).

(** The recorded calls and diagnostics in the form [old ++ new]. *)
Ltac new_calls :=
  apply issued_app; cbn [calls call_made reported rebound];
  rewrite <- ?app_assoc; cbn [app];
  first [reflexivity | symmetry; apply app_nil_r].

Ltac new_diags :=
  apply emitted_app; cbn [diags call_made reported rebound];
  rewrite <- ?app_assoc; cbn [app];
  first [reflexivity | symmetry; apply app_nil_r].

(** A call of a given shape is not in an explicit list of calls. *)
Ltac not_issued :=
  let Hin := fresh "Hin" in
  intros Hin;
  repeat (apply elem_of_cons in Hin as [Hin|Hin]; [discriminate Hin|]);
  by apply elem_of_nil in Hin.

Section Creation.

Context (env : Env).

(** The ladder in general: after the configuration was chosen, the
    creation requests issued are the first [n] of 3.2, 3.1, 3.0 (each with
    the debug flag) and the legacy request, in this order; all but the last
    of them were rejected, the record holds the answer to the last one,
    and the walk stops before the legacy request only on an acceptance. *)
Lemma version_ladder_order (w : World) (dpy share window : handle) :
  bound w ["ChooseConfig"; "CreateContext"; "CreateWindowSurface";
           "CreatePbufferSurface"] →
  let choose := eglChooseConfig dpy (configAttribs (surfaceType window)) in
  let config := default (indeterminate env) (out (oracle env (calls w) choose)) in
  let ladder := [eglCreateContext dpy config share (requested 3 2);
                 eglCreateContext dpy config share (requested 3 1);
                 eglCreateContext dpy config share (requested 3 0);
                 eglCreateContext dpy config share baseAttribs] in
  ret (oracle env (calls w) choose) ≠ EGL_FALSE →
  ∃ rec w' n surface,
    CreateWindowingData env dpy share window w = Some (rec, w') ∧
    (1 ≤ n ≤ 4)%nat ∧
    issued w w' = choose :: take n ladder ++ surface ∧
    Forall surface_creation surface ∧
    (∀ i c, (i < n - 1)%nat → ladder !! i = Some c →
       ret (oracle env (calls w ++ choose :: take i ladder) c) = NULL) ∧
    (∀ c, ladder !! (n - 1)%nat = Some c →
       ret (oracle env (calls w ++ choose :: take (n - 1) ladder) c)
       = egl_ctx rec) ∧
    ((n < 4)%nat → egl_ctx rec ≠ NULL).
Proof.
  intros Hb. cbv zeta.
  unfold CreateWindowingData, RDCERR, surfaceType. simpl version_loop.
  assert (Hsurf : ∀ c, surface_creation c → Forall surface_creation [c])
    by (by repeat constructor).
  destruct (decide (window = 0)) as [->|Hw]; intros Hcfg; go.
  all: eexists _, _.
  all:
    let finish n :=
      solve
        [ exists n; eexists; split; [reflexivity|]; split; [lia|];
          split; [cbn [take app]; new_calls|];
          split; [first [apply Forall_nil_2 | by apply Hsurf]|];
          split; [intros i c Hi;
                  destruct i as [|[|[|i]]]; try lia;
                  cbn [lookup list_lookup take];
                  intros [= <-]; first [assumption | by apply dec_stable] |];
          split; [cbn [lookup list_lookup take Nat.sub egl_ctx];
                  intros c [= <-]; first [reflexivity | by symmetry] |];
          intros Hn; first [lia | assumption] ] in
    first [finish 1%nat | finish 2%nat | finish 3%nat | finish 4%nat].
Qed.

(** C1. Context creation walks the ladder downwards and stops at the first
    version the driver accepts: when the configuration was chosen, the
    driver rejects the request for 3.2 (with the debug flag) and accepts the
    one for 3.1 (with the debug flag), [CreateWindowingData] returns the
    context of the 3.1 attempt; the calls it issued are the configuration
    request, the two attempts and the surface creation, and the legacy
    EGL_CONTEXT_CLIENT_VERSION request is not among them. *)
Theorem version_ladder_stops_at_3_1 (w : World) (dpy share window : handle) :
  bound w ["ChooseConfig"; "CreateContext"; "CreateWindowSurface";
           "CreatePbufferSurface"] →
  let choose := eglChooseConfig dpy (configAttribs (surfaceType window)) in
  let config := default (indeterminate env) (out (oracle env (calls w) choose)) in
  let try32 := eglCreateContext dpy config share (requested 3 2) in
  let try31 := eglCreateContext dpy config share (requested 3 1) in
  let surface := if decide (window = 0)
                 then eglCreatePbufferSurface dpy config pbAttribs
                 else eglCreateWindowSurface dpy config window in
  ret (oracle env (calls w) choose) ≠ EGL_FALSE →
  ret (oracle env (calls w ++ [choose]) try32) = NULL →
  ret (oracle env (calls w ++ [choose; try32]) try31) ≠ NULL →
  ∃ rec w',
    CreateWindowingData env dpy share window w = Some (rec, w') ∧
    egl_ctx rec = ret (oracle env (calls w ++ [choose; try32]) try31) ∧
    issued w w' = [choose; try32; try31; surface] ∧
    ∀ d k s, eglCreateContext d k s baseAttribs ∉ issued w w'.
Proof.
  intros Hb. cbv zeta.
  unfold CreateWindowingData, RDCERR, surfaceType. simpl version_loop.
  destruct (decide (window = 0)) as [->|Hw]; intros Hcfg H32 H31;
    go; (eexists _, _; split; [reflexivity|]; split; [reflexivity|]).
  all: match goal with
       | |- issued ?w0 ?w' = ?l ∧ _ =>
           assert (E : issued w0 w' = l) by new_calls;
           split; [exact E | intros d k s; rewrite E]
       end.
  all: not_issued.
Qed.

(** C6. A driver that rejects the three versioned requests and the legacy
    request: [CreateWindowingData] returns a record whose context and
    surface are null, whatever the configuration step did; and
    [InitialiseAPI], once the default display is open, reports
    APIHardwareUnsupported with a zeroed record.  APIInitFailed is what it
    reports when the default display cannot be opened. *)
Theorem rejecting_driver_is_hardware_unsupported :
  rejects_every_request env →
  (∀ w dpy share window,
     bound w ["ChooseConfig"; "CreateContext"] →
     ∃ w', CreateWindowingData env dpy share window w
           = Some (mkWD dpy NULL NULL, w')) ∧
  (∀ w replayContext,
     bound w ["BindAPI"; "GetDisplay"; "Initialize"] →
     let display := ret (oracle env (calls w ++ [eglBindAPI EGL_OPENGL_ES_API])
                           (eglGetDisplay EGL_DEFAULT_DISPLAY)) in
     ∃ status record w',
       InitialiseAPI env replayContext w = Some ((status, record), w') ∧
       (display ≠ NULL →
          status = APIHardwareUnsupported ∧ record = mkWD NULL NULL NULL) ∧
       (display = NULL →
          status = APIInitFailed ∧ record = replayContext)).
Proof.
  intros Hrej.
  assert (R32 : ∀ h d k s,
    ret (oracle env h (eglCreateContext d k s (requested 3 2))) = NULL)
    by (intros; apply Hrej; set_solver).
  assert (R31 : ∀ h d k s,
    ret (oracle env h (eglCreateContext d k s (requested 3 1))) = NULL)
    by (intros; apply Hrej; set_solver).
  assert (R30 : ∀ h d k s,
    ret (oracle env h (eglCreateContext d k s (requested 3 0))) = NULL)
    by (intros; apply Hrej; set_solver).
  assert (Rb : ∀ h d k s,
    ret (oracle env h (eglCreateContext d k s baseAttribs)) = NULL)
    by (intros; apply Hrej; set_solver).
  split.
  - intros w dpy share window Hb.
    unfold CreateWindowingData, RDCERR. simpl version_loop.
    go; eexists; reflexivity.
  - intros w replayContext Hb. cbv zeta.
    unfold InitialiseAPI, MakeContext, DeleteContext, CreateWindowingData,
      RDCERR, GLWindowingData_default.
    simpl version_loop.
    go; (eexists _, _, _; split; [reflexivity|]); split; intros; try done.
Qed.

(** C7. When the context was created and the surface creation that
    follows fails, [CreateWindowingData] reports the surface failure and
    still returns the context.  In terms of the driver's answers: the
    configuration is chosen, the first [n] requests of the ladder are
    rejected, the next one is accepted and the surface request that
    follows it is answered null.  Then the record holds the display, the
    context the driver returned for the accepted request (not null) and a
    null surface; the calls issued are the configuration request, the
    requests of the ladder up to the accepted one and the surface request,
    nothing after it, so the context is not destroyed; and the one
    diagnostic is the surface failure. *)
Theorem surface_failure_keeps_context
    (w : World) (dpy share window : handle) (n : nat) :
  bound w ["ChooseConfig"; "CreateContext"; "CreateWindowSurface";
           "CreatePbufferSurface"] →
  let choose := eglChooseConfig dpy (configAttribs (surfaceType window)) in
  let config := default (indeterminate env) (out (oracle env (calls w) choose)) in
  let ladder := [eglCreateContext dpy config share (requested 3 2);
                 eglCreateContext dpy config share (requested 3 1);
                 eglCreateContext dpy config share (requested 3 0);
                 eglCreateContext dpy config share baseAttribs] in
  let surface := if decide (window = 0)
                 then eglCreatePbufferSurface dpy config pbAttribs
                 else eglCreateWindowSurface dpy config window in
  ret (oracle env (calls w) choose) ≠ EGL_FALSE →
  (∀ i c, (i < n)%nat → ladder !! i = Some c →
     ret (oracle env (calls w ++ choose :: take i ladder) c) = NULL) →
  (∃ c, ladder !! n = Some c ∧
     ret (oracle env (calls w ++ choose :: take n ladder) c) ≠ NULL) →
  ret (oracle env (calls w ++ choose :: take (S n) ladder) surface) = NULL →
  ∃ create rec w',
    ladder !! n = Some create ∧
    CreateWindowingData env dpy share window w = Some (rec, w') ∧
    rec = mkWD dpy
            (ret (oracle env (calls w ++ choose :: take n ladder) create))
            NULL ∧
    egl_ctx rec ≠ NULL ∧
    issued w w' = choose :: take (S n) ladder ++ [surface] ∧
    emitted w w' =
      [mkDiag LogError
         (if decide (window = 0) then "Couldn't create a suitable PBuffer"
          else "Couldn't create surface for window") []] ∧
    ∀ d c, eglDestroyContext d c ∉ issued w w'.
Proof.
  intros Hb. cbv zeta.
  unfold CreateWindowingData, RDCERR, surfaceType. simpl version_loop.
  destruct (decide (window = 0)) as [->|Hw];
    intros Hcfg Hrej (c & Hc & Hacc) Hsurf.
  all: destruct n as [|[|[|[|n]]]]; try discriminate Hc.
  all: injection Hc as <-.
  all: try (pose proof (Hrej 0%nat _ ltac:(lia) eq_refl) as R0).
  all: try (pose proof (Hrej 1%nat _ ltac:(lia) eq_refl) as R1).
  all: try (pose proof (Hrej 2%nat _ ltac:(lia) eq_refl) as R2).
  all: clear Hrej; cbn [take app] in *.
  all: go.
  all: match goal with
       | H : ret ?r = NULL |- context [ mkWD _ _ (ret ?r) ] => rewrite H
       end.
  all: eexists _, _, _; split; [reflexivity|]; split; [reflexivity|].
  all: split; [reflexivity|]; split; [assumption|].
  all: match goal with
       | |- issued ?w0 ?w' = ?l ∧ _ =>
           assert (E : issued w0 w' = l) by new_calls;
           split; [exact E | split; [new_diags | intros d c; rewrite E]]
       end.
  all: not_issued.
Qed.


End Creation.

Section Initialise.
Context (env : Env).

Ltac live :=
  repeat first
    [ progress cbn [live_after filter list_filter app]
    | rewrite <- app_assoc; cbn [app]
    | match goal with
      | |- context [ decide (?a = NULL) ] => destruct (decide (a = NULL)); try dead
      | |- context [ decide (?a ≠ ?b) ] => destruct (decide (a ≠ b)); try dead
      end ].

(** C10. A failing [InitialiseAPI] leaves nothing behind: no context and no
    surface that the driver created during the call is still alive, on the
    hardware-unsupported path the record is zeroed (after the context of a
    partly successful creation was destroyed), and on the init-failed path
    nothing was created and the caller's record is untouched.  A record is
    handed out with its context and its surface only with Succeeded. *)
Theorem failed_initialise_leaves_nothing_alive
    (w : World) (replayContext : GLWindowingData) :
  bound w ["BindAPI"; "GetDisplay"; "Initialize"; "DestroyContext"] →
  ∃ status record w',
    InitialiseAPI env replayContext w = Some ((status, record), w') ∧
    (status = Succeeded → egl_ctx record ≠ NULL ∧ egl_wnd record ≠ NULL) ∧
    (status ≠ Succeeded →
       live_after env (calls w) (issued w w') [] [] = ([], []) ∧
       (status = APIHardwareUnsupported → record = mkWD NULL NULL NULL) ∧
       (status = APIInitFailed →
          record = replayContext ∧
          issued w w' = [eglBindAPI EGL_OPENGL_ES_API;
                         eglGetDisplay EGL_DEFAULT_DISPLAY])).
Proof.
  intros Hb.
  unfold InitialiseAPI, MakeContext, DeleteContext, CreateWindowingData,
    RDCERR, GLWindowingData_default.
  simpl version_loop.
  go; (eexists _, _, _; split; [reflexivity|]).
  all: split; [intros Hst; first [discriminate Hst | by split] |].
  all: intros Hst; try (exfalso; exact (Hst eq_refl)).
  all: match goal with
       | |- context [ issued ?w0 ?w' ] =>
           let E := fresh in
           eassert (E : issued w0 w' = _) by new_calls; rewrite E; clear E
       end.
  all: split; [| split; intros Hs; first [discriminate Hs | done] ].
  all: live; reflexivity.
Qed.

End Initialise.

Section Lifecycle.
Context (env : Env).

Lemma MakeOutputWindow_no_window window depth share w :
  system window = Unknown ∨ supported (platform env) (system window) = false →
  MakeOutputWindow env window depth share w =
  (when (negb (supported (platform env) (system window)))
     (RDCERR "Unexpected window system %u" [ASys (system window)]);;
   r ← via env "GetDisplay" (eglGetDisplay EGL_DEFAULT_DISPLAY);
   RDCASSERT (bool_decide (ret r ≠ NULL)) "eglDisplay";;
   CreateWindowingData env (ret r) (egl_ctx share) 0) w.
Proof.
  unfold MakeOutputWindow.
  destruct (platform env), (system window); cbn [supported negb];
    intros [H|H]; first [discriminate H | reflexivity].
Qed.

(** C8. In [MakeOutputWindow] the tag Unknown is not an error: no
    "Unexpected window system" diagnostic is emitted; a tag that has no
    [case] label on the build platform is reported, first thing.  In both
    cases the native window stays null and creation goes on against the
    default display: the display is asked for, a configuration for a pixel
    buffer is requested on it, and no window surface is ever created. *)
Theorem unknown_tag_is_not_an_error
    (w : World) (window : WindowingData) (depth : bool) (share : GLWindowingData) :
  bound w ["GetDisplay"; "ChooseConfig"; "CreateContext"; "CreatePbufferSurface"] →
  system window = Unknown ∨ supported (platform env) (system window) = false →
  let display := ret (oracle env (calls w) (eglGetDisplay EGL_DEFAULT_DISPLAY)) in
  ∃ rec w' rest,
    MakeOutputWindow env window depth share w = Some (rec, w') ∧
    issued w w' = eglGetDisplay EGL_DEFAULT_DISPLAY
                  :: eglChooseConfig display (configAttribs EGL_PBUFFER_BIT)
                  :: rest ∧
    (∀ d k win, eglCreateWindowSurface d k win ∉ issued w w') ∧
    (system window = Unknown → ∀ s, unexpected s ∉ emitted w w') ∧
    (supported (platform env) (system window) = false →
       head (emitted w w') = Some (unexpected (system window))).
Proof.
  intros Hb Htag. cbv zeta.
  rewrite MakeOutputWindow_no_window by exact Htag.
  assert (Hu : system window = Unknown →
               supported (platform env) (system window) = true)
    by (intros ->; by destruct (platform env)).
  unfold CreateWindowingData, RDCASSERT, RDCERR. simpl version_loop.
  destruct (supported (platform env) (system window)) eqn:Hs; cbn [negb].
  all: go; (eexists _, _, _; split; [reflexivity|]).
  all: match goal with
       | |- issued ?w0 ?w' = _ ∧ _ =>
           let E := fresh in
           eassert (E : issued w0 w' = _) by new_calls; rewrite E; clear E
       end.
  all: split; [reflexivity|].
  all: split; [intros d k win; not_issued|].
  all: match goal with
       | |- context [ emitted ?w0 ?w' ] =>
           let E := fresh in
           eassert (E : emitted w0 w' = _) by new_diags; rewrite E; clear E
       end.
  all: split; [| intros Hx; first [discriminate Hx | reflexivity] ].
  all: intros Hx; try (specialize (Hu Hx); discriminate Hu).
  all: intros s; not_issued.
Qed.

(** C4. [GetOutputWindowDimensions] hands the thread back as it found
    it, provided the driver honours the request to bind the prior
    context, display and read surface again: the active context, display
    and read surface after the call are those before the call, whether
    the two queries succeeded (nothing is reported, [eglGetError] is not
    called) or one of them failed (the failure is reported with the
    driver's error code); and when the table has [MakeCurrent], the
    request to bind the prior triple is the last call issued. *)
Theorem dimension_query_restores_binding
    (w : World) (context : GLWindowingData) (w0 h0 : Z) :
  bound w ["GetCurrentContext"; "GetCurrentDisplay"; "GetCurrentSurface";
           "QuerySurface"; "GetError"] →
  let prior := eglMakeCurrent (cur_dpy (current w)) (cur_read (current w))
                 (cur_read (current w)) (cur_ctx (current w)) in
  (∀ h, ret (oracle env h prior) = EGL_TRUE) →
  ∃ size w',
    GetOutputWindowDimensions env context w0 h0 w = Some (size, w') ∧
    cur_ctx (current w') = cur_ctx (current w) ∧
    cur_dpy (current w') = cur_dpy (current w) ∧
    cur_read (current w') = cur_read (current w) ∧
    (member (EGL w) "MakeCurrent" ≠ NULL → last (calls w') = Some prior) ∧
    ((emitted w w' = [] ∧ eglGetError ∉ issued w w') ∨
     (∃ code,
        emitted w w' =
          [mkDiag LogWarn "Unable to query the surface size. Error: (0x%x) %s"
             [ANum code; AStr (ToStr env code)]] ∧
        eglGetError ∈ issued w w')).
Proof.
  intros Hb prior Hprior. subst prior.
  unfold GetOutputWindowDimensions, MakeContextCurrent, EGL_MakeCurrent,
    EGL_GetCurrentContext, EGL_GetCurrentDisplay, EGL_GetCurrentSurface,
    RDCWARN.
  go; (eexists _, _; split; [reflexivity|]).
  all: cbn [current rebound call_made reported cur_ctx cur_dpy cur_read].
  all: repeat (split; [reflexivity|]).
  all: split;
    [ intros Hm; try contradiction;
      cbn [calls rebound call_made reported]; rewrite <- ?app_assoc;
      cbn [app];
      match goal with
      | |- last (?l ++ ?x :: ?xs) = _ =>
          rewrite (snoc_ex l xs x); cbn [removelast List.last];
          apply last_snoc
      end |].
  all: match goal with
       | |- context [ issued ?w1 ?w' ] =>
           let E := fresh in
           eassert (E : issued w1 w' = _) by new_calls; rewrite E; clear E
       end.
  all: match goal with
       | |- context [ emitted ?w1 ?w' ] =>
           let E := fresh in
           eassert (E : emitted w1 w' = _) by new_diags; rewrite E; clear E
       end.
  all: first
    [ left; split; [reflexivity | not_issued]
    | right; eexists; split; [reflexivity | set_solver] ].
Qed.

(** C5. [DeleteContext] destroys the surface only if it is present and
    the context only if it is present, each independently of the other,
    and never faults.  [DeleteReplayContext] has one guard, the presence of
    the [DestroyContext] entry point: behind it, it releases the thread's
    binding and then passes both handles of the record to the driver,
    null or not; without that entry point it does nothing. *)
Theorem delete_is_guarded_per_field_only_in_DeleteContext :
  destroys_only_present (DeleteContext env) ∧
  (∀ w context,
     ∃ w', DeleteContext env context w = Some (tt, w') ∧
           current w' = current w ∧
           issued w w' =
             (if decide (egl_wnd context ≠ NULL ∧
                         member (EGL w) "DestroySurface" ≠ NULL)
              then [eglDestroySurface (egl_dpy context) (egl_wnd context)]
              else []) ++
             (if decide (egl_ctx context ≠ NULL ∧
                         member (EGL w) "DestroyContext" ≠ NULL)
              then [eglDestroyContext (egl_dpy context) (egl_ctx context)]
              else [])) ∧
  (∀ w context,
     bound w ["MakeCurrent"; "DestroySurface"; "DestroyContext"] →
     ∃ w', DeleteReplayContext env context w = Some (tt, w') ∧
           issued w w' =
             [eglMakeCurrent (egl_dpy context) 0 0 NULL;
              eglDestroySurface (egl_dpy context) (egl_wnd context);
              eglDestroyContext (egl_dpy context) (egl_ctx context)]) ∧
  (∀ w context,
     member (EGL w) "DestroyContext" = NULL →
     DeleteReplayContext env context w = Some (tt, w)).
Proof.
  assert (HD : ∀ w context,
     ∃ w', DeleteContext env context w = Some (tt, w') ∧
           current w' = current w ∧
           issued w w' =
             (if decide (egl_wnd context ≠ NULL ∧
                         member (EGL w) "DestroySurface" ≠ NULL)
              then [eglDestroySurface (egl_dpy context) (egl_wnd context)]
              else []) ++
             (if decide (egl_ctx context ≠ NULL ∧
                         member (EGL w) "DestroyContext" ≠ NULL)
              then [eglDestroyContext (egl_dpy context) (egl_ctx context)]
              else [])).
  { intros w context. unfold DeleteContext.
    go; (eexists; split; [reflexivity|]; split; [reflexivity|]).
    all: repeat case_decide; try (exfalso; tauto); new_calls. }
  split; [| split; [exact HD | split] ].
  - intros w context Hb Hnull.
    destruct (HD w context) as (w' & Hrun & _ & Hiss).
    exists w'. split; [exact Hrun|]. rewrite Hiss.
    assert (member (EGL w) "DestroySurface" ≠ NULL) by bound_tac.
    assert (member (EGL w) "DestroyContext" ≠ NULL) by bound_tac.
    repeat case_decide; cbn [app];
      rewrite ?elem_of_cons, ?elem_of_nil;
      split; split; first [tauto | intuition discriminate].
  - intros w context Hb. unfold DeleteReplayContext, EGL_MakeCurrent.
    go; (eexists; split; [reflexivity | new_calls]).
  - intros w context Hnull. unfold DeleteReplayContext.
    run. rewrite Hnull. reflexivity.
Qed.

End Lifecycle.

(** ** The symbol table *)

Lemma member_insert (t : gmap string Z) f p g :
  member (<[f := p]> t) g = if decide (f = g) then p else member t g.
Proof.
  unfold member. rewrite lookup_insert. by destruct (decide (f = g)).
Qed.

Lemma run_assign f p w :
  assign f p w
  = Some (tt, mkWorld (<[f := p]> (EGL w)) (current w) (calls w) (diags w)).
Proof. reflexivity. Qed.

Section Populate.
Context (env : Env).

(** The module handle and the load calls depend on the history only. *)
Lemma GetEGLHandle_run (h : list Call) :
  ∃ module loads,
    (∀ t b d, GetEGLHandle env (mkWorld t b h d)
              = Some (module, mkWorld t b (h ++ loads) d)) ∧
    loads ≠ [] ∧ Forall is_LoadModule loads.
Proof.
  unfold GetEGLHandle.
  destruct (platform env).
  2-4: destruct (decide (ret (oracle env h (LoadModule "libEGL.so")) = NULL)).
  all: eexists _, _; split;
    [ intros t b d; run; try (fork; try dead; run);
      unfold call_made; cbn [EGL current calls diags]; rewrite <- ?app_assoc;
      reflexivity
    | split; [discriminate | repeat constructor] ].
Qed.

Lemma LOAD_FUNC_bound module func isext ok w :
  member (EGL w) func ≠ NULL →
  LOAD_FUNC env module func isext ok w = Some (ok, w).
Proof.
  intros Hf. unfold LOAD_FUNC.
  repeat (run; rewrite ?(bool_decide_eq_false_2 _ Hf); cbn [andb]).
  reflexivity.
Qed.

Lemma LOAD_FUNC_spec module func isext ok w :
  (isext = true →
     member (EGL w) "GetProcAddress" ≠ NULL ∨
     (func = "GetProcAddress" ∧
      ∀ h, ret (oracle env h (GetFunctionAddress module "eglGetProcAddress")) ≠ NULL)) →
  ∃ ok' w' new,
    LOAD_FUNC env module func isext ok w = Some (ok', w') ∧
    current w' = current w ∧
    calls w' = calls w ++ new ∧
    Forall is_lookup new ∧
    (member (EGL w) func = NULL →
       GetFunctionAddress module ("egl" +:+ func) ∈ new) ∧
    (∀ g, g ≠ func → member (EGL w') g = member (EGL w) g) ∧
    (member (EGL w) func ≠ NULL → w' = w) ∧
    (member (EGL w) func = NULL →
       ret (oracle env (calls w) (GetFunctionAddress module ("egl" +:+ func))) ≠ NULL →
       member (EGL w') func ≠ NULL) ∧
    ok' = (if bool_decide (member (EGL w') func = NULL) && negb isext
           then false else ok) ∧
    diags w' = diags w ++
      (if bool_decide (member (EGL w') func = NULL) && negb isext
       then [unable_to_load func] else []).
Proof.
  intros Hgpa.
  destruct (decide (member (EGL w) func = NULL)) as [Hnull|Hbound].
  2:{ exists ok, w, []. rewrite LOAD_FUNC_bound by done.
      rewrite (bool_decide_eq_false_2 _ Hbound). cbn [andb].
      rewrite !app_nil_r. repeat split; try done. }
  unfold LOAD_FUNC, RDCWARN. run.
  rewrite (bool_decide_eq_true_2 _ Hnull). run.
  rewrite run_assign. run.
  set (direct := oracle env (calls w) (GetFunctionAddress module ("egl" +:+ func))).
  rewrite member_insert, decide_True by done.
  destruct (decide (ret direct = NULL)) as [Hd|Hd].
  - rewrite (bool_decide_eq_true_2 _ Hd). cbn [andb].
    destruct isext; cbn [negb]; run.
    + (* an extension: the fall-back through the table's GetProcAddress *)
      destruct Hgpa as [Hg|[-> Hg]]; [done| |by destruct (Hg (calls w))].
      assert (Hne : func ≠ "GetProcAddress") by (intros ->; done).
      rewrite run_via
        by (cbn [EGL]; rewrite member_insert, decide_False by done; exact Hg).
      run. rewrite run_assign. run.
      rewrite !member_insert, !decide_True by done.
      rewrite andb_false_r. run.
      eexists _, _, [GetFunctionAddress module ("egl" +:+ func);
                     eglGetProcAddress ("egl" +:+ func)].
      split; [reflexivity|].
      cbn [current calls diags EGL call_made].
      rewrite andb_false_r, app_nil_r, <- ?app_assoc.
      repeat split; try done.
      * repeat constructor.
      * intros _. set_solver.
      * intros g Hg'. rewrite !member_insert, !decide_False by done. done.
    + rewrite member_insert, decide_True by done.
      rewrite (bool_decide_eq_true_2 _ Hd). cbn [andb negb]. run.
      eexists _, _, [GetFunctionAddress module ("egl" +:+ func)].
      split; [reflexivity|].
      cbn [current calls diags EGL reported call_made].
      rewrite member_insert, decide_True by done.
      rewrite (bool_decide_eq_true_2 _ Hd). cbn [andb negb].
      repeat split; try done.
      * repeat constructor.
      * intros _. set_solver.
      * intros g Hg'. rewrite !member_insert, !decide_False by done. done.
  - rewrite (bool_decide_eq_false_2 _ Hd). cbn [andb]. run.
    rewrite member_insert, decide_True by done.
    rewrite (bool_decide_eq_false_2 _ Hd). cbn [andb]. run.
    eexists _, _, [GetFunctionAddress module ("egl" +:+ func)].
    split; [reflexivity|].
    cbn [current calls diags EGL reported call_made].
    rewrite member_insert, decide_True by done.
    rewrite (bool_decide_eq_false_2 _ Hd). cbn [andb]. rewrite app_nil_r.
    repeat split; try done.
    * repeat constructor.
    * intros _. set_solver.
    * intros g Hg'. rewrite !member_insert, !decide_False by done. done.
Qed.

Lemma LOAD_FUNCS_bound module syms ok w :
  Forall (λ s, member (EGL w) s.1 ≠ NULL) syms →
  LOAD_FUNCS env module syms ok w = Some (ok, w).
Proof.
  induction 1 as [|[func isext] rest Hf _ IH]; [reflexivity|].
  cbn [LOAD_FUNCS]. rewrite run_bind, LOAD_FUNC_bound by exact Hf.
  exact IH.
Qed.

Lemma missing_cons (t : gmap string Z) func isext rest :
  missing t ((func, isext) :: rest) =
  (if bool_decide (member t func = NULL) && negb isext then [func] else [])
  ++ missing t rest.
Proof.
  unfold missing. rewrite filter_cons. cbn [fst snd].
  destruct (decide _) as [[-> Hn]|Hn].
  - rewrite (bool_decide_eq_true_2 _ Hn). reflexivity.
  - destruct isext; cbn [negb]; rewrite ?andb_false_r; [reflexivity|].
    rewrite bool_decide_eq_false_2; [reflexivity|].
    intros Hn'. apply Hn. by split.
Qed.

Lemma LOAD_FUNCS_spec module syms :
  ∀ ok w,
    NoDup syms.*1 →
    fallback_callable env w module syms →
    ∃ ok' w' new,
      LOAD_FUNCS env module syms ok w = Some (ok', w') ∧
      current w' = current w ∧
      calls w' = calls w ++ new ∧
      Forall is_lookup new ∧
      (∀ f e, (f, e) ∈ syms → member (EGL w) f = NULL →
         GetFunctionAddress module ("egl" +:+ f) ∈ new) ∧
      (∀ g, g ∉ syms.*1 → member (EGL w') g = member (EGL w) g) ∧
      (∀ g, member (EGL w) g ≠ NULL → member (EGL w') g = member (EGL w) g) ∧
      (ok' = true ↔
         ok = true ∧ ∀ f, (f, false) ∈ syms → member (EGL w') f ≠ NULL) ∧
      diags w' = diags w ++ map unable_to_load (missing (EGL w') syms).
Proof.
  induction syms as [|[func isext] rest IH]; intros ok w Hnd Hfb.
  { exists ok, w, []. cbn [LOAD_FUNCS map missing]. rewrite !app_nil_r.
    repeat split; try done; try constructor.
    - intros f e Hin. by apply elem_of_nil in Hin.
    - intros f Hin. by apply elem_of_nil in Hin.
    - by intros [-> _]. }
  cbn [fmap list_fmap fst] in Hnd. apply NoDup_cons in Hnd as [Hfresh Hnd].
  destruct (LOAD_FUNC_spec module func isext ok w)
    as (ok1 & w1 & new1 & Hrun1 & Hcur1 & Hcalls1 & Hlk1 & Hatt1 & Hframe1
        & Hsame1 & Hres1 & Hok1 & Hdiag1).
  { intros ->. destruct Hfb as [Hg|(pre & e & post & Heq & Hpre & Hex)];
      [by left|].
    destruct pre as [|p pre]; cbn [app] in Heq.
    - simplify_eq. right. by split.
    - simplify_eq. by apply Forall_cons in Hpre as [? _]. }
  assert (Hkeep1 : ∀ g, member (EGL w) g ≠ NULL →
                        member (EGL w1) g = member (EGL w) g).
  { intros g Hg. destruct (decide (g = func)) as [->|Hne];
      [by rewrite (Hsame1 Hg) | by apply Hframe1]. }
  destruct (IH ok1 w1 Hnd)
    as (ok' & w' & new2 & Hrun & Hcur & Hcalls & Hlk & Hatt & Hframe & Hkeep
        & Hok & Hdiag).
  { destruct Hfb as [Hg|(pre & e & post & Heq & Hpre & Hex)].
    - left. by rewrite Hkeep1.
    - destruct pre as [|p pre]; cbn [app] in Heq.
      + simplify_eq. left.
        destruct (decide (member (EGL w) "GetProcAddress" = NULL)) as [Hn|Hn].
        * apply Hres1; [exact Hn | apply Hex].
        * by rewrite Hkeep1.
      + simplify_eq. right. exists pre, e, post.
        apply Forall_cons in Hpre as [_ Hpre]. by repeat split. }
  assert (Hfinal : member (EGL w') func = member (EGL w1) func)
    by (by apply Hframe).
  exists ok', w', (new1 ++ new2).
  cbn [LOAD_FUNCS]. rewrite run_bind, Hrun1, Hrun.
  split; [reflexivity|].
  split; [congruence|].
  split; [by rewrite Hcalls, Hcalls1, app_assoc|].
  split; [by apply Forall_app|].
  split.
  { intros f e Hin Hnull. apply elem_of_app.
    apply elem_of_cons in Hin as [[= -> ->]|Hin].
    - left. by apply Hatt1.
    - right. apply (Hatt f e Hin). rewrite Hframe1; [exact Hnull|].
      intros ->. apply Hfresh. apply list_elem_of_fmap. by exists (func, e). }
  split.
  { intros g Hg. cbn [fmap list_fmap fst] in Hg.
    apply not_elem_of_cons in Hg as [Hne Hg].
    rewrite (Hframe g Hg). by apply Hframe1. }
  split.
  { intros g Hg. rewrite Hkeep; rewrite Hkeep1; done. }
  split.
  { rewrite Hok, Hok1, <- Hfinal. split.
    - intros [Hb Hall].
      destruct (bool_decide_reflect (member (EGL w') func = NULL)) as [Hn|Hn];
        destruct isext; cbn [andb negb] in Hb; try discriminate Hb;
        (split; [exact Hb|]); intros f Hin;
        apply elem_of_cons in Hin as [[= ->]|Hin]; auto.
    - intros [-> Hall].
      assert (Hrest : ∀ f, (f, false) ∈ rest → member (EGL w') f ≠ NULL)
        by (intros f Hin; apply Hall; by right).
      split; [|exact Hrest].
      destruct isext; cbn [negb]; rewrite ?andb_false_r; [reflexivity|].
      rewrite bool_decide_eq_false_2; [reflexivity|]. apply Hall. by left. }
  rewrite Hdiag, Hdiag1, missing_cons, map_app, <- app_assoc, <- Hfinal.
  f_equal. f_equal.
  by destruct (bool_decide (member (EGL w') func = NULL) && negb isext).
Qed.


(** C3, amended. When every symbol is already bound, a repeated
    [PopulateForReplay] leaves the table and the thread's binding as they
    are and looks no symbol up; but it opens the driver module again (the
    calls it issues are the load calls of [GetEGLHandle], at least one), and
    it returns true exactly when that load succeeds. *)
Theorem repopulate_reloads_the_module (w : World) :
  Forall (λ s, member (EGL w) s.1 ≠ NULL) (symbols env) →
  ∃ module w0 ok w',
    GetEGLHandle env w = Some (module, w0) ∧
    PopulateForReplay env w = Some (ok, w') ∧
    EGL w' = EGL w ∧
    current w' = current w ∧
    issued w w' = issued w w0 ∧
    issued w w' ≠ [] ∧
    Forall is_LoadModule (issued w w') ∧
    (ok = true ↔ module ≠ NULL).
Proof.
  intros Hall.
  destruct (GetEGLHandle_run (calls w)) as (m & loads & Hrun & Hne & Hloads).
  assert (Hw : w = mkWorld (EGL w) (current w) (calls w) (diags w))
    by (by destruct w).
  set (asserted := if IsReplayApp env then []
                   else [mkDiag LogAssert "RenderDoc::Inst().IsReplayApp()" []]).
  assert (Hassert : when (negb (IsReplayApp env))
            (emit LogAssert "RenderDoc::Inst().IsReplayApp()" []) w
          = Some (tt, mkWorld (EGL w) (current w) (calls w)
                        (diags w ++ asserted))).
  { subst asserted. destruct (IsReplayApp env); cbn [negb].
    - rewrite run_when_false, app_nil_r. by rewrite Hw at 1.
    - reflexivity. }
  exists m, (mkWorld (EGL w) (current w) (calls w ++ loads) (diags w)).
  destruct (decide (m = NULL)) as [Hm|Hm].
  - eexists false, _. split; [by rewrite Hw at 1|]. split.
    { unfold PopulateForReplay, RDCASSERT, RDCERR.
      rewrite run_bind, Hassert, run_bind, Hrun.
      rewrite decide_True by done. run. reflexivity. }
    cbn [EGL current reported].
    rewrite (issued_app w _ loads) by reflexivity.
    rewrite (issued_app w _ loads) by reflexivity.
    repeat split; try done.
  - eexists true, _. split; [by rewrite Hw at 1|]. split.
    { unfold PopulateForReplay, RDCASSERT, RDCDEBUG.
      rewrite run_bind, Hassert, run_bind, Hrun.
      rewrite decide_False by done. run.
      apply LOAD_FUNCS_bound. exact Hall. }
    cbn [EGL current reported].
    rewrite (issued_app w _ loads) by reflexivity.
    rewrite (issued_app w _ loads) by reflexivity.
    repeat split; try done.
Qed.

End Populate.

(** ** The statements at work on the reference driver *)

Lemma version_ladder_stops_at_3_1_witness :
  ∃ rec w',
    CreateWindowingData Ref.env 7 0 9 Ref.ready = Some (rec, w') ∧
    egl_ctx rec = 73 ∧
    (∀ d k s, eglCreateContext d k s baseAttribs ∉ issued Ref.ready w').
Proof.
  destruct (version_ladder_stops_at_3_1 Ref.env Ref.ready 7 0 9)
    as (rec & w' & Hrun & Hctx & _ & Hlegacy).
  - repeat constructor; vm_compute; discriminate.
  - vm_compute; discriminate.
  - vm_compute; reflexivity.
  - vm_compute; discriminate.
  - exists rec, w'. split; [exact Hrun|]. split; [|exact Hlegacy].
    rewrite Hctx. vm_compute. reflexivity.
Defined.


Lemma repopulate_reloads_the_module_witness :
  ∃ w',
    PopulateForReplay Ref.env Ref.ready = Some (true, w') ∧
    EGL w' = EGL Ref.ready ∧
    issued Ref.ready w' = [LoadModule "libEGL.so"; LoadModule "libEGL.so.1"].
Proof.
  destruct (repopulate_reloads_the_module Ref.env Ref.ready)
    as (module & w0 & ok & w' & _ & Hrun & Htable & _).
  - apply (bool_decide_unpack _). vm_compute. exact I.
  - exists w'. assert (Hc := Hrun). vm_compute in Hc.
    injection Hc as <- Hw'. split; [exact Hrun|]. split; [exact Htable|].
    rewrite <- Hw'. vm_compute. reflexivity.
Defined.

(** C3, as stated, fails: on the reference driver, with every symbol
    bound, a repeated [PopulateForReplay] loads the module again. *)
Lemma repopulate_is_not_a_noop : ¬ repopulate_is_noop Ref.env.
Proof.
  intros Hnoop.
  destruct (Hnoop Ref.ready) as (w' & Hrun & _ & Hload).
  - apply (bool_decide_unpack _). vm_compute. exact I.
  - apply (Hload "libEGL.so").
    vm_compute in Hrun. injection Hrun as <-.
    vm_compute. constructor.
Qed.

Lemma dimension_query_restores_binding_witness :
  ∃ w',
    GetOutputWindowDimensions Ref.env (mkWD 7 73 69) (-1) (-1) Ref.ready
    = Some ((640, 480), w') ∧
    cur_ctx (current w') = 51 ∧
    cur_dpy (current w') = 7 ∧
    cur_read (current w') = 62.
Proof.
  destruct (dimension_query_restores_binding Ref.env Ref.ready (mkWD 7 73 69)
              (-1) (-1))
    as (size & w' & Hrun & Hctx & Hdpy & Hread & _).
  - repeat constructor; vm_compute; discriminate.
  - intros h. reflexivity.
  - exists w'. assert (Hc := Hrun). vm_compute in Hc.
    injection Hc as <- _. split; [exact Hrun|].
    split; [exact Hctx|]. split; [exact Hdpy | exact Hread].
Defined.

Lemma delete_is_guarded_per_field_only_in_DeleteContext_witness :
  ∃ w',
    DeleteContext Ref.env (mkWD 7 73 0) Ref.ready = Some (tt, w') ∧
    issued Ref.ready w' = [eglDestroyContext 7 73].
Proof.
  destruct (delete_is_guarded_per_field_only_in_DeleteContext Ref.env)
    as (_ & Hdelete & _).
  destruct (Hdelete Ref.ready (mkWD 7 73 0)) as (w' & Hrun & _ & Hissued).
  exists w'. split; [exact Hrun|]. rewrite Hissued. vm_compute. reflexivity.
Defined.

(** C5, as stated, fails for [DeleteReplayContext]: on a record with a
    context and no surface it passes the null surface to the driver. *)
Lemma DeleteReplayContext_destroys_absent_surface :
  ¬ destroys_only_present (DeleteReplayContext Ref.env).
Proof.
  intros Hsafe.
  destruct (Hsafe Ref.ready (mkWD 7 73 0)) as (w' & Hrun & Hsurface & _).
  - repeat constructor; vm_compute; discriminate.
  - right. reflexivity.
  - vm_compute in Hrun. injection Hrun as <-.
    apply Hsurface; [|reflexivity].
    vm_compute. do 1 constructor. constructor.
Qed.

Lemma rejecting_driver_is_hardware_unsupported_witness :
  ∃ w',
    InitialiseAPI (Ref.driver (-1) true) (mkWD 1 2 3) Ref.ready
    = Some ((APIHardwareUnsupported, mkWD NULL NULL NULL), w').
Proof.
  destruct (rejecting_driver_is_hardware_unsupported (Ref.driver (-1) true))
    as (_ & Hinit).
  - intros h dpy config share attribs Hin.
    repeat (apply elem_of_cons in Hin as [->|Hin]; [reflexivity|]).
    by apply elem_of_nil in Hin.
  - destruct (Hinit Ref.ready (mkWD 1 2 3))
      as (status & record & w' & Hrun & Hopen & _).
    + repeat constructor; vm_compute; discriminate.
    + destruct Hopen as [-> ->]; [vm_compute; discriminate|].
      exists w'. exact Hrun.
Defined.

Lemma surface_failure_keeps_context_witness :
  ∃ w',
    CreateWindowingData (Ref.driver 2 false) 7 0 0 Ref.ready
    = Some (mkWD 7 72 NULL, w') ∧
    ∀ d c, eglDestroyContext d c ∉ issued Ref.ready w'.
Proof.
  destruct (surface_failure_keeps_context (Ref.driver 2 false) Ref.ready 7 0 0
              0%nat)
    as (create & rec & w' & Hcreate & Hrun & Hrec & _ & _ & _ & Hnone).
  - repeat constructor; vm_compute; discriminate.
  - vm_compute; discriminate.
  - intros i c Hi. lia.
  - eexists. split; [reflexivity|]. vm_compute; discriminate.
  - vm_compute; reflexivity.
  - injection Hcreate as <-. exists w'. split; [|exact Hnone].
    rewrite Hrun, Hrec. vm_compute. reflexivity.
Defined.

Lemma unknown_tag_is_not_an_error_witness :
  ∃ rec w',
    MakeOutputWindow Ref.env (mkWindow Win32 5 0 9) true (mkWD 7 0 0) Ref.ready
    = Some (rec, w') ∧
    head (emitted Ref.ready w') = Some (unexpected Win32) ∧
    ∀ d k win, eglCreateWindowSurface d k win ∉ issued Ref.ready w'.
Proof.
  destruct (unknown_tag_is_not_an_error Ref.env Ref.ready
              (mkWindow Win32 5 0 9) true (mkWD 7 0 0))
    as (rec & w' & rest & Hrun & _ & Hnowindow & _ & Hreported).
  - repeat constructor; vm_compute; discriminate.
  - right. reflexivity.
  - exists rec, w'. split; [exact Hrun|].
    split; [apply Hreported; reflexivity | exact Hnowindow].
Defined.


Lemma failed_initialise_leaves_nothing_alive_witness :
  ∃ w',
    InitialiseAPI (Ref.driver 2 false) (mkWD 1 2 3) Ref.ready
    = Some ((APIHardwareUnsupported, mkWD NULL NULL NULL), w') ∧
    live_after (Ref.driver 2 false) (calls Ref.ready) (issued Ref.ready w') [] []
    = ([], []).
Proof.
  destruct (failed_initialise_leaves_nothing_alive (Ref.driver 2 false)
              Ref.ready (mkWD 1 2 3))
    as (status & record & w' & Hrun & _ & Hfail).
  - repeat constructor; vm_compute; discriminate.
  - assert (Hc := Hrun). vm_compute in Hc. injection Hc as <- <- _.
    exists w'. split; [exact Hrun|].
    apply Hfail. discriminate.
Defined.

(** Why [fallback_callable] is asked for: when the module exports neither
    eglGetProcAddress nor an extension entry point, LOAD_FUNC reaches the
    fall-back with the table's [GetProcAddress] still null. *)
Lemma fallback_through_unbound_GetProcAddress :
  PopulateForReplay Ref.stub Ref.start = None.
Proof. vm_compute. reflexivity. Qed.


(** * Further properties of the platform functions *)

Section Contexts.
Context (env : Env).

(** X1. [MakeContextCurrent] never faults.  It answers true exactly when
    the table has [MakeCurrent] and the driver accepts the request; then
    the thread draws to and reads from the record's one surface.  When it
    answers false the thread's binding is the one it had, and without the
    entry point the driver is not called at all. *)
Theorem MakeContextCurrent_binds_one_surface (w : World) (data : GLWindowingData) :
  let request := eglMakeCurrent (egl_dpy data) (egl_wnd data) (egl_wnd data)
                   (egl_ctx data) in
  ∃ ok w',
    MakeContextCurrent env data w = Some (ok, w') ∧
    EGL w' = EGL w ∧ diags w' = diags w ∧
    (ok = true ↔ member (EGL w) "MakeCurrent" ≠ NULL ∧
                 ret (oracle env (calls w) request) = EGL_TRUE) ∧
    (ok = true →
       current w' = mkBinding (egl_dpy data) (egl_wnd data) (egl_wnd data)
                      (egl_ctx data)) ∧
    (ok = false → current w' = current w) ∧
    (member (EGL w) "MakeCurrent" ≠ NULL → issued w w' = [request]) ∧
    (member (EGL w) "MakeCurrent" = NULL → w' = w).
Proof.
  cbv zeta. unfold MakeContextCurrent, EGL_MakeCurrent.
  go;
    try match goal with
        | H : ret _ = EGL_TRUE |- _ => rewrite (bool_decide_eq_true_2 _ H)
        | H : ret _ ≠ EGL_TRUE |- _ => rewrite (bool_decide_eq_false_2 _ H)
        end;
    (eexists _, _; split; [reflexivity|]);
    cbn [EGL diags current rebound call_made];
    (split; [reflexivity|]); (split; [reflexivity|]).
  all: repeat split; try done; try tauto; try (intros; new_calls).
Qed.

(** X2. When no configuration is found, [CreateWindowingData] stops there:
    it reports the failure, asks the driver for nothing else and returns
    the display with a null context and a null surface.  Only
    [ChooseConfig] has to be bound for this. *)
Theorem no_configuration_creates_nothing (w : World) (dpy share window : handle) :
  member (EGL w) "ChooseConfig" ≠ NULL →
  let choose := eglChooseConfig dpy (configAttribs (surfaceType window)) in
  ret (oracle env (calls w) choose) = EGL_FALSE →
  CreateWindowingData env dpy share window w
  = Some (mkWD dpy NULL NULL,
          reported (call_made w choose)
            (mkDiag LogError "Couldn't find a suitable EGL config" [])).
Proof.
  intros Hb. cbv zeta. unfold CreateWindowingData, RDCERR, surfaceType.
  intros Hcfg. go. reflexivity.
Qed.

(** X3. With a native window, [CreateWindowingData] asks for a
    configuration that can back a window; the only surface it ever creates
    is a window surface on that window and that display, which is then the
    last call, and it never asks for a pixel buffer. *)
Theorem windowed_creation_uses_the_window (w : World) (dpy share window : handle) :
  window ≠ 0 →
  bound w ["ChooseConfig"; "CreateContext"; "CreateWindowSurface"] →
  ∃ rec w' rest,
    CreateWindowingData env dpy share window w = Some (rec, w') ∧
    issued w w' = eglChooseConfig dpy (configAttribs EGL_WINDOW_BIT) :: rest ∧
    (∀ d k a, eglCreatePbufferSurface d k a ∉ issued w w') ∧
    (∀ d k win, eglCreateWindowSurface d k win ∈ issued w w' →
       d = dpy ∧ win = window) ∧
    (egl_ctx rec ≠ NULL →
       ∃ h k,
         calls w' = h ++ [eglCreateWindowSurface dpy k window] ∧
         egl_wnd rec = ret (oracle env h (eglCreateWindowSurface dpy k window))).
Proof.
  intros Hw Hb.
  unfold CreateWindowingData, RDCERR. simpl version_loop.
  destruct (decide (window = 0)); [contradiction|].
  go; (eexists _, _, _; split; [reflexivity|]).
  all: match goal with
       | |- issued ?w0 ?w' = _ ∧ _ =>
           let E := fresh in
           eassert (E : issued w0 w' = _) by new_calls; rewrite E; clear E
       end.
  all: split; [reflexivity|].
  all: split; [intros d k a; not_issued|].
  all: split;
    [ intros d k win Hin;
      repeat (apply elem_of_cons in Hin as [Hin|Hin];
              [first [discriminate Hin | by injection Hin as -> _ ->]|]);
      by apply elem_of_nil in Hin |].
  all: cbn [egl_ctx egl_wnd calls call_made reported rebound]; intros Hctx;
       try (exfalso; exact (Hctx eq_refl)).
  all: rewrite <- ?app_assoc; cbn [app];
       match goal with
       | |- ∃ h k, ?l ++ ?x :: ?xs = _ ∧ _ =>
           exists (l ++ removelast (x :: xs)); eexists;
           cbn [removelast List.last];
           split; [by rewrite <- app_assoc | reflexivity]
       end.
Qed.

(** X4. What [CreateWindowingData] keeps, whatever the driver answers: the
    record carries the display it was given; a surface is never returned
    without a context; a diagnostic is emitted exactly when the record is
    not complete, and never more than one; the calls issued only select a
    configuration or create a context or a surface, for the display and
    the share context given; the dispatch table and the thread's binding
    are left alone. *)
Theorem CreateWindowingData_record_invariant
    (w : World) (dpy share window : handle) :
  bound w ["ChooseConfig"; "CreateContext"; "CreateWindowSurface";
           "CreatePbufferSurface"] →
  ∃ rec w',
    CreateWindowingData env dpy share window w = Some (rec, w') ∧
    egl_dpy rec = dpy ∧
    (egl_wnd rec ≠ NULL → egl_ctx rec ≠ NULL) ∧
    (emitted w w' = [] ↔ egl_ctx rec ≠ NULL ∧ egl_wnd rec ≠ NULL) ∧
    (length (emitted w w') ≤ 1)%nat ∧
    Forall creation_call (issued w w') ∧
    (∀ d k s a, eglCreateContext d k s a ∈ issued w w' → d = dpy ∧ s = share) ∧
    EGL w' = EGL w ∧
    current w' = current w.
Proof.
  intros Hb.
  unfold CreateWindowingData, RDCERR. simpl version_loop.
  go; (eexists _, _; split; [reflexivity|]).
  all: match goal with
       | |- context [ issued ?w0 ?w' ] =>
           let E := fresh in
           eassert (E : issued w0 w' = _) by new_calls; rewrite E; clear E
       end.
  all: match goal with
       | |- context [ emitted ?w0 ?w' ] =>
           let E := fresh in
           eassert (E : emitted w0 w' = _) by new_diags; rewrite E; clear E
       end.
  all: cbn [egl_dpy egl_ctx egl_wnd EGL current call_made reported length].
  all: split; [reflexivity|].
  all: split; [intros Hs; first [assumption | exfalso; exact (Hs eq_refl)
                                 | exfalso; contradiction]|].
  all: split;
    [ split;
      [ intros Hnil; first [discriminate Hnil | by split]
      | intros [Hc Hs]; first [reflexivity | exfalso; exact (Hc eq_refl)
                               | exfalso; contradiction] ] |].
  all: split; [lia|].
  all: split; [repeat constructor|].
  all: split; [| by split].
  all: intros d k s a Hin;
       repeat (apply elem_of_cons in Hin as [Hin|Hin];
               [first [discriminate Hin | by injection Hin as -> _ -> _]|]);
       by apply elem_of_nil in Hin.
Qed.

(** X5. [MakeContext] never faults, whatever the state of the table: the
    three entry points it tests are the ones the window-less creation
    calls through.  When one of them is missing it returns the empty
    record without calling the driver.  Otherwise every context it asks
    for is on the share record's display and shares with the share
    record's context, and it never creates a window surface.  The table
    and the thread's binding are left alone. *)
Theorem MakeContext_is_guarded (w : World) (share : GLWindowingData) :
  ∃ rec w',
    MakeContext env share w = Some (rec, w') ∧
    EGL w' = EGL w ∧ current w' = current w ∧
    (member (EGL w) "CreateContext" = NULL ∨
     member (EGL w) "ChooseConfig" = NULL ∨
     member (EGL w) "CreatePbufferSurface" = NULL →
       rec = GLWindowingData_default ∧ w' = w) ∧
    (∀ d k s a, eglCreateContext d k s a ∈ issued w w' →
       d = egl_dpy share ∧ s = egl_ctx share) ∧
    (∀ d k win, eglCreateWindowSurface d k win ∉ issued w w') ∧
    (egl_wnd rec ≠ NULL → egl_ctx rec ≠ NULL).
Proof.
  unfold MakeContext, CreateWindowingData, RDCERR, GLWindowingData_default.
  simpl version_loop.
  go; (eexists _, _; split; [reflexivity|]).
  all: match goal with
       | |- context [ issued ?w0 ?w' ] =>
           let E := fresh in
           eassert (E : issued w0 w' = _) by new_calls; rewrite ?E; clear E
       end.
  all: cbn [egl_dpy egl_ctx egl_wnd EGL current call_made reported].
  all: split; [reflexivity|]; split; [reflexivity|].
  all: split; [intros [?|[?|?]]; first [done | by split] |].
  all: split;
    [ intros d k s a Hin;
      repeat (apply elem_of_cons in Hin as [Hin|Hin];
              [first [discriminate Hin | by injection Hin as -> _ -> _]|]);
      by apply elem_of_nil in Hin |].
  all: split; [intros d k win; not_issued|].
  all: intros Hs; first [assumption | exfalso; exact (Hs eq_refl)
                         | exfalso; contradiction].
Qed.

End Contexts.


Section Symbols.
Context (env : Env).

(** X6. [GetEGLHandle] outside Windows: "libEGL.so" is tried first and
    "libEGL.so.1" only after it failed to load; the handle returned is the
    answer to the last load, so it is null exactly when every name tried
    failed.  Nothing is reported and nothing else changes. *)
Theorem GetEGLHandle_tries_the_soname_second (w : World) :
  platform env ≠ RDOC_WIN32 →
  let first := ret (oracle env (calls w) (LoadModule "libEGL.so")) in
  let second := ret (oracle env (calls w ++ [LoadModule "libEGL.so"])
                       (LoadModule "libEGL.so.1")) in
  ∃ module w',
    GetEGLHandle env w = Some (module, w') ∧
    EGL w' = EGL w ∧ current w' = current w ∧ diags w' = diags w ∧
    (first ≠ NULL →
       module = first ∧ issued w w' = [LoadModule "libEGL.so"]) ∧
    (first = NULL →
       module = second ∧
       issued w w' = [LoadModule "libEGL.so"; LoadModule "libEGL.so.1"]) ∧
    (module = NULL ↔ first = NULL ∧ second = NULL).
Proof.
  intros Hp. cbv zeta. unfold GetEGLHandle.
  destruct (platform env); try contradiction;
    go; (eexists _, _; split; [reflexivity|]);
    cbn [EGL current diags call_made];
    repeat (split; [reflexivity|]);
    (split; [intros; first [contradiction | split; [reflexivity | new_calls]]|]);
    (split; [intros; first [contradiction | split; [reflexivity | new_calls]]|]);
    split; first [tauto | by intros [? ?] | by split].
Qed.

(** X7. [GetReplayFunction] asks the driver first and the module second:
    a non-null answer of eglGetProcAddress is returned as it is and the
    module is not opened; after a null answer the module is opened (by
    [GetEGLHandle]) and the result is what the module has under the very
    name that was asked for, looked up with whatever handle the load gave.
    The table and the thread's binding are left alone and nothing is
    reported. *)
Theorem GetReplayFunction_asks_the_driver_first (w : World) (funcname : string) :
  member (EGL w) "GetProcAddress" ≠ NULL →
  let query := eglGetProcAddress funcname in
  ∃ p w',
    GetReplayFunction env funcname w = Some (p, w') ∧
    EGL w' = EGL w ∧ current w' = current w ∧ diags w' = diags w ∧
    (ret (oracle env (calls w) query) ≠ NULL →
       p = ret (oracle env (calls w) query) ∧ issued w w' = [query]) ∧
    (ret (oracle env (calls w) query) = NULL →
       ∃ module w0,
         GetEGLHandle env (call_made w query) = Some (module, w0) ∧
         issued w w' = query :: issued (call_made w query) w0
                       ++ [GetFunctionAddress module funcname] ∧
         p = ret (oracle env (calls w0) (GetFunctionAddress module funcname))).
Proof.
  intros Hb. cbv zeta. unfold GetReplayFunction.
  destruct (GetEGLHandle_run env (calls w ++ [eglGetProcAddress funcname]))
    as (m & loads & Hrun & _ & _).
  run. destruct (decide (ret reply ≠ NULL)) as [Hd|Hd].
  - run. eexists _, _; split; [reflexivity|].
    cbn [EGL current diags call_made].
    repeat (split; [reflexivity|]).
    split; [intros _; split; [reflexivity | new_calls] | intros; contradiction].
  - rewrite run_bind. unfold call_made. rewrite Hrun. run.
    eexists _, _; split; [reflexivity|].
    cbn [EGL current diags call_made].
    repeat (split; [reflexivity|]).
    split; [intros; contradiction|].
    intros _. eexists _, _; split; [reflexivity|].
    split; [|reflexivity].
    match goal with
    | |- _ = _ :: issued ?a ?b ++ _ =>
        assert (E : issued a b = loads)
          by (apply issued_app; cbn [calls call_made];
              by rewrite <- ?app_assoc)
    end.
    rewrite E. apply issued_app. cbn [calls call_made].
    by rewrite <- ?app_assoc.
Qed.

Lemma PopulateForReplay_no_module (w : World) (module : handle) (w0 : World) :
  GetEGLHandle env w = Some (module, w0) →
  module = NULL →
  ∃ w',
    PopulateForReplay env w = Some (false, w') ∧
    EGL w' = EGL w ∧ current w' = current w ∧
    issued w w' = issued w w0 ∧
    Forall is_LoadModule (issued w w0) ∧
    emitted w w'
    = (if IsReplayApp env then []
       else [mkDiag LogAssert "RenderDoc::Inst().IsReplayApp()" []])
      ++ [mkDiag LogError "Can't load libEGL" []].
Proof.
  intros Hload ->.
  destruct (GetEGLHandle_run env (calls w)) as (m & loads & Hrun & _ & Hloads).
  assert (Hw : w = mkWorld (EGL w) (current w) (calls w) (diags w))
    by (by destruct w).
  rewrite Hw, Hrun in Hload. injection Hload as -> <-.
  set (asserted := if IsReplayApp env then []
                   else [mkDiag LogAssert "RenderDoc::Inst().IsReplayApp()" []]).
  assert (Hassert : when (negb (IsReplayApp env))
            (emit LogAssert "RenderDoc::Inst().IsReplayApp()" []) w
          = Some (tt, mkWorld (EGL w) (current w) (calls w)
                        (diags w ++ asserted))).
  { subst asserted. destruct (IsReplayApp env); cbn [negb].
    - rewrite run_when_false, app_nil_r. by rewrite Hw at 1.
    - reflexivity. }
  eexists. split.
  { unfold PopulateForReplay, RDCASSERT, RDCERR.
    rewrite run_bind, Hassert, run_bind, Hrun.
    rewrite decide_True by done. run. reflexivity. }
  cbn [EGL current reported].
  rewrite (issued_app w _ loads) by reflexivity.
  rewrite (issued_app w _ loads) by reflexivity.
  repeat (split; [done|]).
  apply emitted_app. cbn [diags reported]. by rewrite <- ?app_assoc.
Qed.

(** X8. When the driver module cannot be loaded, [PopulateForReplay]
    returns false at once: the only error is "Can't load libEGL", no symbol
    is looked up (the calls are the load attempts), and the table and the
    thread's binding are as before. *)
Theorem populate_without_module (w : World) (module : handle) (w0 : World) :
  GetEGLHandle env w = Some (module, w0) →
  module = NULL →
  ∃ w',
    PopulateForReplay env w = Some (false, w') ∧
    EGL w' = EGL w ∧ current w' = current w ∧
    issued w w' = issued w w0 ∧
    Forall is_LoadModule (issued w w') ∧
    filter (λ d, level d = LogError) (emitted w w')
    = [mkDiag LogError "Can't load libEGL" []].
Proof.
  intros Hload Hm.
  destruct (PopulateForReplay_no_module w module w0 Hload Hm)
    as (w' & Hrun & Ht & Hc & Hiss & Hloads & Hdiags).
  exists w'. rewrite Hiss, Hdiags, filter_app.
  repeat (split; [done|]).
  by destruct (IsReplayApp env).
Qed.

(** X9. [PopulateForReplay] only ever fills in null members: a member that
    holds a pointer on entry holds the same pointer afterwards, a member
    whose name is not in the symbol list is not touched, and the thread's
    binding is not touched, whether the module loads or not. *)
Theorem populate_never_rebinds (w : World) (module : handle) (w0 : World) :
  NoDup (symbols env).*1 →
  GetEGLHandle env w = Some (module, w0) →
  fallback_callable env w module (symbols env) →
  ∃ ok w',
    PopulateForReplay env w = Some (ok, w') ∧
    current w' = current w ∧
    (∀ g, member (EGL w) g ≠ NULL → member (EGL w') g = member (EGL w) g) ∧
    (∀ g, g ∉ (symbols env).*1 → member (EGL w') g = member (EGL w) g).
Proof.
  intros Hnd Hload Hfb.
  destruct (decide (module = NULL)) as [Hm|Hm].
  { destruct (PopulateForReplay_no_module w module w0 Hload Hm)
      as (w' & Hrun & Ht & Hc & _).
    exists false, w'. rewrite Ht. by repeat split. }
  destruct (GetEGLHandle_run env (calls w)) as (m & loads & Hrun & _ & _).
  assert (Hw : w = mkWorld (EGL w) (current w) (calls w) (diags w))
    by (by destruct w).
  rewrite Hw, Hrun in Hload. injection Hload as <- <-.
  set (asserted := if IsReplayApp env then []
                   else [mkDiag LogAssert "RenderDoc::Inst().IsReplayApp()" []]).
  set (w1 := mkWorld (EGL w) (current w) (calls w ++ loads)
               ((diags w ++ asserted)
                ++ [mkDiag LogDebug "Initialising EGL function pointers" []])).
  destruct (LOAD_FUNCS_spec env m (symbols env) true w1 Hnd Hfb)
    as (ok & w' & new & Hfuncs & Hcur & _ & _ & _ & Hframe & Hkeep & _).
  exists ok, w'. split; [|by repeat split].
  unfold PopulateForReplay, RDCASSERT, RDCERR, RDCDEBUG.
  rewrite run_bind.
  assert (Hassert : when (negb (IsReplayApp env))
            (emit LogAssert "RenderDoc::Inst().IsReplayApp()" []) w
          = Some (tt, mkWorld (EGL w) (current w) (calls w)
                        (diags w ++ asserted))).
  { subst asserted. destruct (IsReplayApp env); cbn [negb].
    - rewrite run_when_false, app_nil_r. by rewrite Hw at 1.
    - reflexivity. }
  rewrite Hassert. rewrite run_bind, Hrun.
  rewrite decide_False by done. run. exact Hfuncs.
Qed.

(** X10. One LOAD_FUNC on a null member, with the table's
    [GetProcAddress] bound: the module is asked first and its answer, if
    not null, is what the member holds afterwards, the driver not being
    asked; a null answer is followed by the driver's eglGetProcAddress for
    an extension symbol only, and a mandatory symbol stays null. *)
Theorem LOAD_FUNC_asks_the_module_first
    (module : handle) (func : string) (isext ok : bool) (w : World) :
  member (EGL w) func = NULL →
  member (EGL w) "GetProcAddress" ≠ NULL →
  let lookup := GetFunctionAddress module ("egl" +:+ func) in
  let query := eglGetProcAddress ("egl" +:+ func) in
  let direct := ret (oracle env (calls w) lookup) in
  let indirect := ret (oracle env (calls w ++ [lookup]) query) in
  ∃ ok' w',
    LOAD_FUNC env module func isext ok w = Some (ok', w') ∧
    member (EGL w') func =
      (if decide (direct ≠ NULL) then direct
       else if isext then indirect else NULL) ∧
    issued w w' =
      lookup :: (if decide (direct ≠ NULL) then []
                 else if isext then [query] else []).
Proof.
  intros Hnull Hgpa. cbv zeta.
  assert (Hne : func ≠ "GetProcAddress") by (intros ->; done).
  unfold LOAD_FUNC, RDCWARN. run.
  rewrite (bool_decide_eq_true_2 _ Hnull). run.
  rewrite run_assign. run.
  rewrite member_insert, decide_True by done.
  destruct (decide (ret reply ≠ NULL)) as [Hd|Hd].
  - rewrite (bool_decide_eq_false_2 _ Hd). cbn [andb]. run.
    rewrite member_insert, decide_True by done.
    rewrite (bool_decide_eq_false_2 _ Hd). cbn [andb]. run.
    eexists _, _; split; [reflexivity|]. cbn [EGL].
    rewrite member_insert, decide_True by done.
    split; [reflexivity | new_calls].
  - apply dec_stable in Hd.
    rewrite (bool_decide_eq_true_2 _ Hd). cbn [andb].
    destruct isext; cbn [negb]; run.
    + rewrite run_via
        by (cbn [EGL]; rewrite member_insert, decide_False by done; exact Hgpa).
      run. rewrite run_assign. run.
      rewrite !member_insert, !decide_True by done.
      rewrite andb_false_r. run.
      eexists _, _; split; [reflexivity|]. cbn [EGL].
      rewrite member_insert, decide_True by done.
      split; [reflexivity | new_calls].
    + rewrite member_insert, decide_True by done.
      rewrite (bool_decide_eq_true_2 _ Hd). cbn [andb negb]. run.
      eexists _, _; split; [reflexivity|]. cbn [EGL reported].
      rewrite member_insert, decide_True by done.
      split; [exact Hd | new_calls].
Qed.

Lemma LOAD_FUNC_calls module func isext ok w ok' w' :
  LOAD_FUNC env module func isext ok w = Some (ok', w') →
  ∃ new,
    calls w' = calls w ++ new ∧
    (∀ g, g ≠ func → member (EGL w') g = member (EGL w) g) ∧
    (∀ c, c ∈ new →
       member (EGL w) func = NULL ∧
       (c = GetFunctionAddress module ("egl" +:+ func) ∨
        (isext = true ∧ c = eglGetProcAddress ("egl" +:+ func)))).
Proof.
  destruct (decide (member (EGL w) func = NULL)) as [Hnull|Hbound].
  2:{ rewrite LOAD_FUNC_bound by done. intros [= <- <-].
      exists []. rewrite app_nil_r. split; [done|]. split; [done|].
      intros c Hc. by apply elem_of_nil in Hc. }
  unfold LOAD_FUNC, RDCWARN. run.
  rewrite (bool_decide_eq_true_2 _ Hnull). run.
  rewrite run_assign. run.
  rewrite member_insert, decide_True by done.
  destruct (decide (ret reply = NULL)) as [Hd|Hd].
  - rewrite (bool_decide_eq_true_2 _ Hd). cbn [andb].
    destruct isext; cbn [negb]; run.
    + destruct (decide (member (<[func:=ret reply]> (EGL w)) "GetProcAddress"
                        = NULL)) as [Hg|Hg].
      { rewrite run_via_null by exact Hg. discriminate. }
      rewrite run_via by exact Hg.
      run. rewrite run_assign. run.
      rewrite !member_insert, !decide_True by done.
      rewrite andb_false_r. run. intros [= <- <-].
      eexists. split; [cbn [calls]; reflexivity|]. cbn [EGL]. split.
      * intros g Hne. rewrite !member_insert, !decide_False by done. done.
      * intros c Hc. split; [done|].
        apply elem_of_cons in Hc as [->|Hc]; [by left|].
        apply elem_of_cons in Hc as [->|Hc]; [by right|].
        by apply elem_of_nil in Hc.
    + rewrite member_insert, decide_True by done.
      rewrite (bool_decide_eq_true_2 _ Hd). cbn [andb negb]. run.
      intros [= <- <-].
      eexists. split; [cbn [calls reported]; reflexivity|].
      cbn [EGL reported]. split.
      * intros g Hne. rewrite !member_insert, !decide_False by done. done.
      * intros c Hc. split; [done|].
        apply elem_of_cons in Hc as [->|Hc]; [by left|].
        by apply elem_of_nil in Hc.
  - rewrite (bool_decide_eq_false_2 _ Hd). cbn [andb]. run.
    rewrite member_insert, decide_True by done.
    rewrite (bool_decide_eq_false_2 _ Hd). cbn [andb]. run.
    intros [= <- <-].
    eexists. split; [cbn [calls]; reflexivity|]. cbn [EGL]. split.
    * intros g Hne. rewrite !member_insert, !decide_False by done. done.
    * intros c Hc. split; [done|].
      apply elem_of_cons in Hc as [->|Hc]; [by left|].
      by apply elem_of_nil in Hc.
Qed.

Lemma LOAD_FUNCS_calls module syms :
  ∀ ok w ok' w',
    NoDup syms.*1 →
    LOAD_FUNCS env module syms ok w = Some (ok', w') →
    ∃ new,
      calls w' = calls w ++ new ∧
      ∀ c, c ∈ new →
        ∃ func isext,
          (func, isext) ∈ syms ∧ member (EGL w) func = NULL ∧
          (c = GetFunctionAddress module ("egl" +:+ func) ∨
           (isext = true ∧ c = eglGetProcAddress ("egl" +:+ func))).
Proof.
  induction syms as [|[func isext] rest IH]; intros ok w ok' w' Hnd Hrun.
  { injection Hrun as <- <-. exists []. rewrite app_nil_r. split; [done|].
    intros c Hc. by apply elem_of_nil in Hc. }
  cbn [fmap list_fmap fst] in Hnd. apply NoDup_cons in Hnd as [Hfresh Hnd].
  cbn [LOAD_FUNCS] in Hrun. rewrite run_bind in Hrun.
  destruct (LOAD_FUNC env module func isext ok w) as [[ok1 w1]|] eqn:H1;
    [|discriminate].
  destruct (LOAD_FUNC_calls _ _ _ _ _ _ _ H1) as (new1 & Hc1 & Hframe1 & Hin1).
  destruct (IH _ _ _ _ Hnd Hrun) as (new2 & Hc2 & Hin2).
  exists (new1 ++ new2). split; [by rewrite Hc2, Hc1, app_assoc|].
  intros c Hc. apply elem_of_app in Hc as [Hc|Hc].
  - destruct (Hin1 c Hc) as [Hnull Hshape].
    exists func, isext. split; [by left | by split].
  - destruct (Hin2 c Hc) as (f & e & Hfe & Hnull & Hshape).
    exists f, e. split; [by right|]. split; [|exact Hshape].
    rewrite <- Hframe1; [exact Hnull|].
    intros ->. apply Hfresh. apply list_elem_of_fmap. by exists (func, e).
Qed.

(** X11. What [PopulateForReplay] asks for: after the load attempts, every
    call is a lookup of a listed symbol that was null on entry, under its
    name with the "egl" prefix, in the module; or, for a symbol listed as
    an extension only, through the driver's eglGetProcAddress.  A member
    that is already bound is never looked up again. *)
Theorem populate_looks_up_listed_null_symbols
    (w : World) (module : handle) (w0 : World) :
  NoDup (symbols env).*1 →
  GetEGLHandle env w = Some (module, w0) →
  fallback_callable env w module (symbols env) →
  ∃ ok w' lookups,
    PopulateForReplay env w = Some (ok, w') ∧
    issued w w' = issued w w0 ++ lookups ∧
    ∀ c, c ∈ lookups →
      ∃ func isext,
        (func, isext) ∈ symbols env ∧ member (EGL w) func = NULL ∧
        (c = GetFunctionAddress module ("egl" +:+ func) ∨
         (isext = true ∧ c = eglGetProcAddress ("egl" +:+ func))).
Proof.
  intros Hnd Hload Hfb.
  destruct (decide (module = NULL)) as [Hm|Hm].
  { destruct (PopulateForReplay_no_module w module w0 Hload Hm)
      as (w' & Hrun & _ & _ & Hiss & _).
    exists false, w', []. rewrite app_nil_r. split; [exact Hrun|].
    split; [exact Hiss|]. intros c Hc. by apply elem_of_nil in Hc. }
  destruct (GetEGLHandle_run env (calls w)) as (m & loads & Hrun & _ & _).
  assert (Hw : w = mkWorld (EGL w) (current w) (calls w) (diags w))
    by (by destruct w).
  rewrite Hw, Hrun in Hload. injection Hload as <- <-.
  set (asserted := if IsReplayApp env then []
                   else [mkDiag LogAssert "RenderDoc::Inst().IsReplayApp()" []]).
  set (w1 := mkWorld (EGL w) (current w) (calls w ++ loads)
               ((diags w ++ asserted)
                ++ [mkDiag LogDebug "Initialising EGL function pointers" []])).
  destruct (LOAD_FUNCS_spec env m (symbols env) true w1 Hnd Hfb)
    as (ok & w' & new & Hfuncs & _).
  destruct (LOAD_FUNCS_calls m (symbols env) _ _ _ _ Hnd Hfuncs)
    as (lookups & Hcalls & Hshape).
  exists ok, w', lookups. split.
  { unfold PopulateForReplay, RDCASSERT, RDCERR, RDCDEBUG.
    rewrite run_bind.
    assert (Hassert : when (negb (IsReplayApp env))
              (emit LogAssert "RenderDoc::Inst().IsReplayApp()" []) w
            = Some (tt, mkWorld (EGL w) (current w) (calls w)
                          (diags w ++ asserted))).
    { subst asserted. destruct (IsReplayApp env); cbn [negb].
      - rewrite run_when_false, app_nil_r. by rewrite Hw at 1.
      - reflexivity. }
    rewrite Hassert. rewrite run_bind, Hrun.
    rewrite decide_False by done. run. exact Hfuncs. }
  split; [|exact Hshape].
  assert (E : issued w (mkWorld (EGL w) (current w) (calls w ++ loads) (diags w))
              = loads) by (by apply issued_app).
  rewrite E. apply issued_app. rewrite Hcalls. subst w1. cbn [calls].
  by rewrite app_assoc.
Qed.

End Symbols.

(** ** Windows, sizes and the replay context *)

Ltac alive :=
  repeat first
    [ progress cbn [live_after filter list_filter app]
    | rewrite <- app_assoc; cbn [app]
    | match goal with
      | |- context [ decide (?a = NULL) ] => destruct (decide (a = NULL)); try dead
      | |- context [ decide (?a ≠ ?b) ] => destruct (decide (a ≠ b)); try dead
      end ].

Ltac issued_list :=
  match goal with
  | |- context [ issued ?w0 ?w' ] =>
      let E := fresh in
      eassert (E : issued w0 w' = _) by new_calls; rewrite ?E; clear E
  end.

Ltac emitted_list :=
  match goal with
  | |- context [ emitted ?w0 ?w' ] =>
      let E := fresh in
      eassert (E : emitted w0 w' = _) by new_diags; rewrite ?E; clear E
  end.

Section Windows.
Context (env : Env).

Lemma MakeOutputWindow_window window depth share w :
  supported (platform env) (system window) = true →
  MakeOutputWindow env window depth share w =
  (r ← via env "GetDisplay" (eglGetDisplay EGL_DEFAULT_DISPLAY);
   RDCASSERT (bool_decide (ret r ≠ NULL)) "eglDisplay";;
   CreateWindowingData env (ret r) (egl_ctx share)
     (native_window (platform env) window)) w.
Proof.
  unfold MakeOutputWindow, native_window.
  destruct (platform env), (system window); cbn [supported];
    intros H; first [discriminate H | reflexivity].
Qed.

(** X12. [MakeOutputWindow] with a tag the build platform has a label for
    (or Unknown): no "Unexpected window system" diagnostic; the default
    display is asked for first and the record carries what the driver
    answered, a null display being asserted on but used all the same;
    every context is requested on that display and shares with the share
    record's context; a window surface is only ever created on the native
    handle that belongs to the tag, and a pixel buffer only when that
    handle is null. *)
Theorem supported_tag_creates_on_the_native_window
    (w : World) (window : WindowingData) (depth : bool) (share : GLWindowingData) :
  bound w ["GetDisplay"; "ChooseConfig"; "CreateContext";
           "CreateWindowSurface"; "CreatePbufferSurface"] →
  supported (platform env) (system window) = true →
  let display := ret (oracle env (calls w) (eglGetDisplay EGL_DEFAULT_DISPLAY)) in
  let win := native_window (platform env) window in
  ∃ rec w',
    MakeOutputWindow env window depth share w = Some (rec, w') ∧
    egl_dpy rec = display ∧
    head (issued w w') = Some (eglGetDisplay EGL_DEFAULT_DISPLAY) ∧
    (∀ s, unexpected s ∉ emitted w w') ∧
    (mkDiag LogAssert "eglDisplay" [] ∈ emitted w w' ↔ display = NULL) ∧
    (∀ d k s a, eglCreateContext d k s a ∈ issued w w' →
       d = display ∧ s = egl_ctx share) ∧
    (∀ d k x, eglCreateWindowSurface d k x ∈ issued w w' →
       d = display ∧ x = win ∧ win ≠ 0) ∧
    (∀ d k a, eglCreatePbufferSurface d k a ∈ issued w w' →
       d = display ∧ win = 0).
Proof.
  intros Hb Htag. cbv zeta.
  rewrite MakeOutputWindow_window by exact Htag.
  generalize (native_window (platform env) window). intros win.
  unfold CreateWindowingData, RDCASSERT, RDCERR. simpl version_loop.
  destruct (decide (win = 0)) as [Hwin|Hwin].
  all: go; (eexists _, _; split; [reflexivity|]).
  all: issued_list; emitted_list.
  all: cbn [egl_dpy head].
  all: split; [reflexivity|]; split; [reflexivity|].
  all: split; [intros s; not_issued|].
  all: split;
    [ split;
      [ intros Hin;
        repeat (apply elem_of_cons in Hin as [Hin|Hin];
                [first [discriminate Hin | done | by apply dec_stable]|]);
        by apply elem_of_nil in Hin
      | intros Hd; first [ by (apply elem_of_cons; left)
                         | exfalso; contradiction ] ] |].
  all: split;
    [ intros d k s a Hin;
      repeat (apply elem_of_cons in Hin as [Hin|Hin];
              [first [discriminate Hin | by injection Hin as -> _ -> _]|]);
      by apply elem_of_nil in Hin |].
  all: split;
    [ intros d k x Hin;
      repeat (apply elem_of_cons in Hin as [Hin|Hin];
              [first [discriminate Hin | by injection Hin as -> _ ->]|]);
      by apply elem_of_nil in Hin |].
  all: intros d k a Hin;
       repeat (apply elem_of_cons in Hin as [Hin|Hin];
               [first [discriminate Hin | by injection Hin as -> _ _]|]);
       by apply elem_of_nil in Hin.
Qed.

End Windows.

Section Replay.
Context (env : Env).

(** X13. [DeleteReplayContext] tests one entry point and calls through
    three: with [DestroyContext] bound and [MakeCurrent] or
    [DestroySurface] null, it calls through a null pointer. *)
Theorem DeleteReplayContext_guard_is_partial
    (w : World) (context : GLWindowingData) :
  member (EGL w) "DestroyContext" ≠ NULL →
  member (EGL w) "MakeCurrent" = NULL ∨ member (EGL w) "DestroySurface" = NULL →
  DeleteReplayContext env context w = None.
Proof.
  intros Hd Hnull. unfold DeleteReplayContext, EGL_MakeCurrent. run.
  rewrite (bool_decide_eq_true_2 _ Hd). run.
  destruct (decide (member (EGL w) "MakeCurrent" = NULL)) as [Hm|Hm].
  { by rewrite run_via_null. }
  destruct Hnull as [Hm'|Hs]; [contradiction|].
  go; by rewrite run_via_null.
Qed.

(** X14. [DeleteReplayContext] with its three entry points: the thread is
    left bound to the record's display with no context and no surface if
    the driver accepts the release, and as it was if not; the two destroy
    calls are issued either way; nothing is reported and the table is
    left alone. *)
Theorem DeleteReplayContext_releases_the_thread
    (w : World) (context : GLWindowingData) :
  bound w ["MakeCurrent"; "DestroySurface"; "DestroyContext"] →
  let release := eglMakeCurrent (egl_dpy context) 0 0 NULL in
  let accepted := ret (oracle env (calls w) release) = EGL_TRUE in
  ∃ w',
    DeleteReplayContext env context w = Some (tt, w') ∧
    (accepted → current w' = mkBinding (egl_dpy context) 0 0 NULL) ∧
    (¬ accepted → current w' = current w) ∧
    eglDestroySurface (egl_dpy context) (egl_wnd context) ∈ issued w w' ∧
    last (issued w w')
      = Some (eglDestroyContext (egl_dpy context) (egl_ctx context)) ∧
    emitted w w' = [] ∧
    EGL w' = EGL w.
Proof.
  intros Hb. cbv zeta. unfold DeleteReplayContext, EGL_MakeCurrent.
  go; (eexists; split; [reflexivity|]).
  all: issued_list; emitted_list.
  all: cbn [current EGL rebound call_made].
  all: split; [intros Ha; first [reflexivity | exfalso; contradiction]|].
  all: split; [intros Ha; first [reflexivity | exfalso; contradiction]|].
  all: split; [set_solver|].
  all: by repeat split.
Qed.

(** X15. What [GetOutputWindowDimensions] hands back: each of the two
    values is what the driver wrote for the record's surface, width first
    and height second, asked after the record was made current, or the
    caller's value when the driver wrote nothing; the warning is emitted
    exactly when one of the two queries answered false, and the values
    are handed back all the same; no other surface is queried. *)
Theorem dimension_query_outputs
    (w : World) (context : GLWindowingData) (w0 h0 : Z) :
  bound w ["GetCurrentContext"; "GetCurrentDisplay"; "GetCurrentSurface";
           "QuerySurface"; "GetError"] →
  let width := eglQuerySurface (egl_dpy context) (egl_wnd context) EGL_WIDTH in
  let height := eglQuerySurface (egl_dpy context) (egl_wnd context) EGL_HEIGHT in
  let select := eglMakeCurrent (egl_dpy context) (egl_wnd context)
                  (egl_wnd context) (egl_ctx context) in
  let before :=
    calls w
    ++ [eglGetCurrentContext; eglGetCurrentDisplay; eglGetCurrentSurface EGL_READ]
    ++ (if decide (member (EGL w) "MakeCurrent" ≠ NULL) then [select] else []) in
  let rw := oracle env before width in
  let rh := oracle env (before ++ [width]) height in
  ∃ w',
    GetOutputWindowDimensions env context w0 h0 w
      = Some ((default w0 (out rw), default h0 (out rh)), w') ∧
    (emitted w w' = [] ↔ ret rw ≠ EGL_FALSE ∧ ret rh ≠ EGL_FALSE) ∧
    (∀ d s a, eglQuerySurface d s a ∈ issued w w' →
       eglQuerySurface d s a = width ∨ eglQuerySurface d s a = height) ∧
    EGL w' = EGL w.
Proof.
  intros Hb. cbv zeta.
  destruct (decide (member (EGL w) "MakeCurrent" ≠ NULL)) as [Hm|Hm].
  all: cbn [app]; rewrite <- ?app_assoc; cbn [app].
  all: unfold GetOutputWindowDimensions, MakeContextCurrent, EGL_MakeCurrent,
    EGL_GetCurrentContext, EGL_GetCurrentDisplay, EGL_GetCurrentSurface,
    RDCWARN.
  all: go; (eexists; split; [reflexivity|]).
  all: issued_list; emitted_list.
  all: cbn [EGL call_made reported rebound].
  all: split;
    [ split;
      [ intros Hnil; first [discriminate Hnil | by split]
      | intros [Hw Hh]; first [reflexivity | exfalso; contradiction] ] |].
  all: split; [| reflexivity].
  all: intros d s a Hin;
       repeat (apply elem_of_cons in Hin as [Hin|Hin];
               [first [discriminate Hin | by left | by right]|]);
       by apply elem_of_nil in Hin.
Qed.

(** X16. [GetOutputWindowDimensions] saves the read surface only: the
    draw surface is never asked for, and the restoring request names the
    prior read surface for drawing and for reading.  So when the driver
    accepts that request the thread draws to what was its read surface;
    without [MakeCurrent] in the table the binding is not touched and the
    driver is never asked to change it. *)
Theorem dimension_query_restores_read_as_draw
    (w : World) (context : GLWindowingData) (w0 h0 : Z) :
  bound w ["GetCurrentContext"; "GetCurrentDisplay"; "GetCurrentSurface";
           "QuerySurface"; "GetError"] →
  let prior := eglMakeCurrent (cur_dpy (current w)) (cur_read (current w))
                 (cur_read (current w)) (cur_ctx (current w)) in
  ∃ size w',
    GetOutputWindowDimensions env context w0 h0 w = Some (size, w') ∧
    (∀ which, eglGetCurrentSurface which ∈ issued w w' → which = EGL_READ) ∧
    (member (EGL w) "MakeCurrent" ≠ NULL →
     ret (oracle env (removelast (calls w')) prior) = EGL_TRUE →
       current w' = mkBinding (cur_dpy (current w)) (cur_read (current w))
                      (cur_read (current w)) (cur_ctx (current w))) ∧
    (member (EGL w) "MakeCurrent" = NULL →
       current w' = current w ∧
       ∀ d a b c, eglMakeCurrent d a b c ∉ issued w w').
Proof.
  intros Hb. cbv zeta.
  unfold GetOutputWindowDimensions, MakeContextCurrent, EGL_MakeCurrent,
    EGL_GetCurrentContext, EGL_GetCurrentDisplay, EGL_GetCurrentSurface,
    RDCWARN.
  go; (eexists _, _; split; [reflexivity|]).
  all: issued_list.
  all: cbn [current calls rebound call_made reported].
  all: split;
    [ intros which Hin;
      repeat (apply elem_of_cons in Hin as [Hin|Hin];
              [first [discriminate Hin | by injection Hin as ->]|]);
      by apply elem_of_nil in Hin |].
  all: split;
    [ intros Hm; try contradiction; intros Ha; first
        [ reflexivity
        | exfalso; revert Ha; rewrite <- ?app_assoc; cbn [app];
          match goal with
          | |- context [ removelast (?l ++ ?x :: ?xs) ] =>
              rewrite (snoc_ex l xs x); cbn [removelast List.last];
              rewrite removelast_last
          end;
          intros Ha; dead ]
    | intros Hm;
      first [ contradiction
            | split; [reflexivity | intros d a b c; not_issued] ] ].
Qed.

(** X17. [InitialiseAPI] binds the API and asks for the default display,
    in that order, before anything else.  It answers APIInitFailed exactly
    when the display is null; otherwise the display is initialised next
    and every context is requested on it, sharing with nothing.  It
    answers Succeeded exactly when it reported nothing; then the record
    carries the display, its context and its surface are the only ones
    the call left alive, and nothing was destroyed. *)
Theorem successful_initialise_owns_one_context
    (w : World) (replayContext : GLWindowingData) :
  bound w ["BindAPI"; "GetDisplay"; "Initialize"; "DestroyContext"] →
  let display := ret (oracle env (calls w ++ [eglBindAPI EGL_OPENGL_ES_API])
                        (eglGetDisplay EGL_DEFAULT_DISPLAY)) in
  ∃ status rec w' rest,
    InitialiseAPI env replayContext w = Some ((status, rec), w') ∧
    issued w w' = eglBindAPI EGL_OPENGL_ES_API
                  :: eglGetDisplay EGL_DEFAULT_DISPLAY :: rest ∧
    (status = APIInitFailed ↔ display = NULL) ∧
    (status ≠ APIInitFailed → head rest = Some (eglInitialize display)) ∧
    (∀ d k s a, eglCreateContext d k s a ∈ rest →
       d = display ∧ s = EGL_NO_CONTEXT) ∧
    (status = Succeeded ↔ emitted w w' = []) ∧
    (status = Succeeded →
       egl_dpy rec = display ∧
       live_after env (calls w) (issued w w') [] [] = ([egl_ctx rec], [egl_wnd rec]) ∧
       (∀ d x, eglDestroyContext d x ∉ rest) ∧
       (∀ d x, eglDestroySurface d x ∉ rest)).
Proof.
  intros Hb. cbv zeta.
  unfold InitialiseAPI, MakeContext, DeleteContext, CreateWindowingData,
    RDCERR, GLWindowingData_default.
  simpl version_loop.
  go; (eexists _, _, _, _; split; [reflexivity|]).
  all: issued_list; emitted_list.
  all: split; [reflexivity|].
  all: split;
    [ split; intros Hst; first [discriminate Hst | assumption | reflexivity
                               | exfalso; contradiction] |].
  all: split;
    [ intros Hst; first [reflexivity | exfalso; exact (Hst eq_refl)] |].
  all: split;
    [ intros d k s a Hin;
      repeat (apply elem_of_cons in Hin as [Hin|Hin];
              [first [discriminate Hin | by injection Hin as -> _ -> _]|]);
      by apply elem_of_nil in Hin |].
  all: split;
    [ split; intros Hst; first [discriminate Hst | reflexivity] |].
  all: intros Hst; try discriminate Hst.
  all: cbn [egl_dpy egl_ctx egl_wnd].
  all: split; [reflexivity|].
  all: split; [alive; reflexivity|].
  all: split; intros d x; not_issued.
Qed.

(** X18. What [CreateWindowingData] creates, [DeleteContext] destroys:
    whatever the driver answered during creation, complete record or
    not, no context and no surface created on the way is alive after the
    record was passed to [DeleteContext], and the thread's binding is
    the one before. *)
Theorem DeleteContext_undoes_creation (w : World) (dpy share window : handle) :
  bound w ["ChooseConfig"; "CreateContext"; "CreateWindowSurface";
           "CreatePbufferSurface"; "DestroySurface"; "DestroyContext"] →
  ∃ rec w1,
    CreateWindowingData env dpy share window w = Some (rec, w1) ∧
    ∃ w2,
      DeleteContext env rec w1 = Some (tt, w2) ∧
      live_after env (calls w) (issued w w2) [] [] = ([], []) ∧
      current w2 = current w.
Proof.
  intros Hb.
  unfold CreateWindowingData, RDCERR. simpl version_loop.
  go; (eexists _, _; split; [reflexivity|]).
  all: unfold DeleteContext.
  all: go; (eexists; split; [reflexivity|]).
  all: issued_list.
  all: split; [alive; reflexivity | reflexivity].
Qed.

(** X19. A replay context that [InitialiseAPI] handed out with Succeeded
    and that is passed to [DeleteReplayContext] leaves nothing behind: no
    context and no surface created since is alive, and the thread is
    bound to no context if the driver accepts the release. *)
Theorem DeleteReplayContext_undoes_initialise
    (w : World) (replayContext : GLWindowingData) :
  bound w ["BindAPI"; "GetDisplay"; "Initialize"; "MakeCurrent";
           "DestroySurface"; "DestroyContext"] →
  ∃ status rec w1,
    InitialiseAPI env replayContext w = Some ((status, rec), w1) ∧
    (status = Succeeded →
       ∃ w2,
         DeleteReplayContext env rec w1 = Some (tt, w2) ∧
         live_after env (calls w) (issued w w2) [] [] = ([], []) ∧
         (ret (oracle env (calls w1) (eglMakeCurrent (egl_dpy rec) 0 0 NULL))
            = EGL_TRUE →
          cur_ctx (current w2) = NULL)).
Proof.
  intros Hb.
  unfold InitialiseAPI, MakeContext, DeleteContext, CreateWindowingData,
    RDCERR, GLWindowingData_default.
  simpl version_loop.
  go; (eexists _, _, _; split; [reflexivity|]).
  all: intros Hst; try discriminate Hst.
  all: unfold DeleteReplayContext, EGL_MakeCurrent.
  all: go; (eexists; split; [reflexivity|]).
  all: issued_list.
  all: split; [alive; reflexivity |].
  all: cbn [calls call_made reported rebound current cur_ctx];
       rewrite <- ?app_assoc; cbn [app].
  all: intros Ha; first [reflexivity | exfalso; dead].
Qed.

End Replay.

(** ** The further properties at work on the reference driver *)

Lemma no_configuration_creates_nothing_witness :
  ∃ w',
    CreateWindowingData Ref.absent 7 0 9 Ref.ready = Some (mkWD 7 NULL NULL, w') ∧
    issued Ref.ready w' = [eglChooseConfig 7 (configAttribs EGL_WINDOW_BIT)].
Proof.
  eexists. split.
  - apply (no_configuration_creates_nothing Ref.absent Ref.ready 7 0 9).
    + vm_compute; discriminate.
    + reflexivity.
  - vm_compute. reflexivity.
Defined.

Lemma windowed_creation_uses_the_window_witness :
  ∃ rec w',
    CreateWindowingData Ref.env 7 0 9 Ref.ready = Some (rec, w') ∧
    egl_wnd rec = 69 ∧
    ∀ d k a, eglCreatePbufferSurface d k a ∉ issued Ref.ready w'.
Proof.
  destruct (windowed_creation_uses_the_window Ref.env Ref.ready 7 0 9)
    as (rec & w' & rest & Hrun & _ & Hnone & _).
  - discriminate.
  - repeat constructor; vm_compute; discriminate.
  - assert (Hc := Hrun). vm_compute in Hc. injection Hc as <- _.
    eexists _, w'. split; [exact Hrun|]. split; [reflexivity | exact Hnone].
Defined.

Lemma CreateWindowingData_record_invariant_witness :
  ∃ rec w',
    CreateWindowingData (Ref.driver 2 false) 7 0 0 Ref.ready = Some (rec, w') ∧
    egl_dpy rec = 7 ∧
    (length (emitted Ref.ready w') ≤ 1)%nat ∧
    current w' = current Ref.ready.
Proof.
  destruct (CreateWindowingData_record_invariant (Ref.driver 2 false)
              Ref.ready 7 0 0)
    as (rec & w' & Hrun & Hdpy & _ & _ & Hone & _ & _ & _ & Hcur).
  - repeat constructor; vm_compute; discriminate.
  - exists rec, w'. split; [exact Hrun|]. split; [exact Hdpy|].
    split; [exact Hone | exact Hcur].
Defined.

Lemma GetEGLHandle_tries_the_soname_second_witness :
  ∃ w',
    GetEGLHandle Ref.env Ref.start = Some (100, w') ∧
    issued Ref.start w' = [LoadModule "libEGL.so"; LoadModule "libEGL.so.1"].
Proof.
  destruct (GetEGLHandle_tries_the_soname_second Ref.env Ref.start)
    as (module & w' & Hrun & _ & _ & _ & _ & Hsecond & _).
  - discriminate.
  - destruct Hsecond as [-> Hiss]; [reflexivity|].
    exists w'. split; [exact Hrun | exact Hiss].
Defined.

Lemma GetReplayFunction_asks_the_driver_first_witness :
  ∃ w',
    GetReplayFunction Ref.env "glClear" Ref.ready = Some (2007, w') ∧
    issued Ref.ready w' = [eglGetProcAddress "glClear"].
Proof.
  destruct (GetReplayFunction_asks_the_driver_first Ref.env Ref.ready "glClear")
    as (p & w' & Hrun & _ & _ & _ & Hdriver & _).
  - vm_compute; discriminate.
  - destruct Hdriver as [-> Hiss]; [vm_compute; discriminate|].
    exists w'. split; [exact Hrun | exact Hiss].
Defined.

Lemma populate_without_module_witness :
  ∃ w',
    PopulateForReplay Ref.absent Ref.start = Some (false, w') ∧
    EGL w' = ∅ ∧
    issued Ref.start w' = [LoadModule "libEGL.so"; LoadModule "libEGL.so.1"].
Proof.
  destruct (populate_without_module Ref.absent Ref.start 0
              (mkWorld ∅ (mkBinding 0 0 0 0)
                 [LoadModule "libEGL.so"; LoadModule "libEGL.so.1"] []))
    as (w' & Hrun & Htable & _ & Hiss & _).
  - vm_compute. reflexivity.
  - reflexivity.
  - exists w'. split; [exact Hrun|]. split; [exact Htable | exact Hiss].
Defined.

Lemma populate_never_rebinds_witness :
  ∃ ok w',
    PopulateForReplay Ref.env
      (mkWorld {["DestroyContext" := 5]} (mkBinding 7 61 62 51) [] [])
    = Some (ok, w') ∧
    member (EGL w') "DestroyContext" = 5 ∧
    current w' = mkBinding 7 61 62 51.
Proof.
  destruct (populate_never_rebinds Ref.env
              (mkWorld {["DestroyContext" := 5]} (mkBinding 7 61 62 51) [] [])
              100
              (mkWorld {["DestroyContext" := 5]} (mkBinding 7 61 62 51)
                 [LoadModule "libEGL.so"; LoadModule "libEGL.so.1"] []))
    as (ok & w' & Hrun & Hcur & Hkeep & _).
  - apply (bool_decide_unpack _). vm_compute. exact I.
  - vm_compute. reflexivity.
  - right. eexists [("BindAPI", false)], false, _.
    split; [reflexivity|]. split; [repeat constructor|].
    intros h E. vm_compute in E. discriminate E.
  - exists ok, w'. split; [exact Hrun|]. split; [|exact Hcur].
    apply (Hkeep "DestroyContext"). vm_compute. discriminate.
Defined.

Lemma LOAD_FUNC_asks_the_module_first_witness :
  ∃ ok w',
    LOAD_FUNC Ref.env 100 "PostSubBufferNV" true true
      (mkWorld {["GetProcAddress" := 1017]} (mkBinding 0 0 0 0) [] [])
    = Some (ok, w') ∧
    member (EGL w') "PostSubBufferNV" = 2018 ∧
    calls w' = [GetFunctionAddress 100 "eglPostSubBufferNV";
                eglGetProcAddress "eglPostSubBufferNV"].
Proof.
  destruct (LOAD_FUNC_asks_the_module_first Ref.env 100 "PostSubBufferNV" true true
              (mkWorld {["GetProcAddress" := 1017]} (mkBinding 0 0 0 0) [] []))
    as (ok & w' & Hrun & Hmember & Hiss).
  - reflexivity.
  - vm_compute; discriminate.
  - exists ok, w'. split; [exact Hrun|]. split; [exact Hmember | exact Hiss].
Defined.

Lemma populate_looks_up_listed_null_symbols_witness :
  ∃ ok w' lookups,
    PopulateForReplay Ref.env
      (mkWorld {["DestroyContext" := 5]} (mkBinding 7 61 62 51) [] [])
    = Some (ok, w') ∧
    calls w' = [LoadModule "libEGL.so"; LoadModule "libEGL.so.1"] ++ lookups ∧
    ∀ c, c ∈ lookups → is_lookup c.
Proof.
  destruct (populate_looks_up_listed_null_symbols Ref.env
              (mkWorld {["DestroyContext" := 5]} (mkBinding 7 61 62 51) [] [])
              100
              (mkWorld {["DestroyContext" := 5]} (mkBinding 7 61 62 51)
                 [LoadModule "libEGL.so"; LoadModule "libEGL.so.1"] []))
    as (ok & w' & lookups & Hrun & Hiss & Hshape).
  - apply (bool_decide_unpack _). vm_compute. exact I.
  - vm_compute. reflexivity.
  - right. eexists [("BindAPI", false)], false, _.
    split; [reflexivity|]. split; [repeat constructor|].
    intros h E. vm_compute in E. discriminate E.
  - exists ok, w', lookups. split; [exact Hrun|]. split; [exact Hiss|].
    intros c Hin.
    destruct (Hshape c Hin) as (func & isext & _ & _ & [->|[_ ->]]); exact I.
Defined.

Lemma supported_tag_creates_on_the_native_window_witness :
  ∃ rec w',
    MakeOutputWindow Ref.env (mkWindow Xlib 5 9 11) true (mkWD 7 51 0) Ref.ready
    = Some (rec, w') ∧
    egl_dpy rec = 7 ∧
    ∀ d k a, eglCreatePbufferSurface d k a ∉ issued Ref.ready w'.
Proof.
  destruct (supported_tag_creates_on_the_native_window Ref.env Ref.ready
              (mkWindow Xlib 5 9 11) true (mkWD 7 51 0))
    as (rec & w' & Hrun & Hdpy & _ & _ & _ & _ & _ & Hpb).
  - repeat constructor; vm_compute; discriminate.
  - reflexivity.
  - exists rec, w'. split; [exact Hrun|]. split; [exact Hdpy|].
    intros d k a Hin. destruct (Hpb d k a Hin) as [_ Hzero].
    vm_compute in Hzero. discriminate Hzero.
Defined.

Lemma DeleteReplayContext_guard_is_partial_witness :
  DeleteReplayContext Ref.env (mkWD 7 73 69) Ref.partial = None.
Proof.
  apply (DeleteReplayContext_guard_is_partial Ref.env Ref.partial (mkWD 7 73 69)).
  - vm_compute; discriminate.
  - left. reflexivity.
Defined.

Lemma DeleteReplayContext_releases_the_thread_witness :
  ∃ w',
    DeleteReplayContext Ref.env (mkWD 7 73 69) Ref.ready = Some (tt, w') ∧
    current w' = mkBinding 7 0 0 0.
Proof.
  destruct (DeleteReplayContext_releases_the_thread Ref.env Ref.ready (mkWD 7 73 69))
    as (w' & Hrun & Hreleased & _).
  - repeat constructor; vm_compute; discriminate.
  - exists w'. split; [exact Hrun|]. apply Hreleased. reflexivity.
Defined.

Lemma dimension_query_outputs_witness :
  ∃ w',
    GetOutputWindowDimensions Ref.env (mkWD 7 73 69) (-1) (-1) Ref.ready
    = Some ((640, 480), w') ∧
    emitted Ref.ready w' = [].
Proof.
  destruct (dimension_query_outputs Ref.env Ref.ready (mkWD 7 73 69) (-1) (-1))
    as (w' & Hrun & Hquiet & _).
  - repeat constructor; vm_compute; discriminate.
  - exists w'. split; [exact Hrun|]. apply Hquiet.
    split; vm_compute; discriminate.
Defined.

Lemma dimension_query_restores_read_as_draw_witness :
  ∃ size w',
    GetOutputWindowDimensions Ref.env (mkWD 7 73 69) (-1) (-1) Ref.ready
    = Some (size, w') ∧
    cur_draw (current Ref.ready) = 61 ∧
    cur_draw (current w') = 62.
Proof.
  destruct (dimension_query_restores_read_as_draw Ref.env Ref.ready
              (mkWD 7 73 69) (-1) (-1))
    as (size & w' & Hrun & _ & Hrestored & _).
  - repeat constructor; vm_compute; discriminate.
  - exists size, w'. split; [exact Hrun|]. split; [reflexivity|].
    rewrite Hrestored; [reflexivity | vm_compute; discriminate | reflexivity].
Defined.

Lemma successful_initialise_owns_one_context_witness :
  ∃ rec w',
    InitialiseAPI Ref.env (mkWD 1 2 3) Ref.ready = Some ((Succeeded, rec), w') ∧
    live_after Ref.env (calls Ref.ready) (issued Ref.ready w') [] []
    = ([egl_ctx rec], [egl_wnd rec]).
Proof.
  destruct (successful_initialise_owns_one_context Ref.env Ref.ready (mkWD 1 2 3))
    as (status & rec & w' & rest & Hrun & _ & _ & _ & _ & _ & Hok).
  - repeat constructor; vm_compute; discriminate.
  - assert (Hc := Hrun). vm_compute in Hc. injection Hc as <- _ _.
    exists rec, w'. split; [exact Hrun|].
    destruct (Hok eq_refl) as (_ & Hlive & _). exact Hlive.
Defined.

Lemma DeleteContext_undoes_creation_witness :
  ∃ rec w1 w2,
    CreateWindowingData Ref.env 7 0 9 Ref.ready = Some (rec, w1) ∧
    DeleteContext Ref.env rec w1 = Some (tt, w2) ∧
    live_after Ref.env (calls Ref.ready) (issued Ref.ready w2) [] [] = ([], []).
Proof.
  destruct (DeleteContext_undoes_creation Ref.env Ref.ready 7 0 9)
    as (rec & w1 & Hcreate & w2 & Hdelete & Hlive & _).
  - repeat constructor; vm_compute; discriminate.
  - exists rec, w1, w2. split; [exact Hcreate|].
    split; [exact Hdelete | exact Hlive].
Defined.

Lemma DeleteReplayContext_undoes_initialise_witness :
  ∃ rec w1 w2,
    InitialiseAPI Ref.env (mkWD 1 2 3) Ref.ready = Some ((Succeeded, rec), w1) ∧
    DeleteReplayContext Ref.env rec w1 = Some (tt, w2) ∧
    live_after Ref.env (calls Ref.ready) (issued Ref.ready w2) [] [] = ([], []).
Proof.
  destruct (DeleteReplayContext_undoes_initialise Ref.env Ref.ready (mkWD 1 2 3))
    as (status & rec & w1 & Hrun & Hok).
  - repeat constructor; vm_compute; discriminate.
  - assert (Hc := Hrun). vm_compute in Hc. injection Hc as <- _ _.
    destruct (Hok eq_refl) as (w2 & Hdelete & Hlive & _).
    exists rec, w1, w2. split; [exact Hrun|].
    split; [exact Hdelete | exact Hlive].
Defined.
